(** * Class / class-notice endpoints: unit of work and read-through cache

    A shallow embedding of [app/routers/class_.py].  Every handler of the
    router is a computation in a small state-and-exception monad over a
    [World] made of the committed database, the open session, the cache,
    the clock and a trace of the calls the handler issued.

    The router's collaborators live outside the router module
    ([app.core.redis], [app.core.db.session], [app.models.db.class_],
    [app.core.errors]); their behaviour is fixed here from the
    specification and each such definition says so. *)

From Stdlib Require Import ZArith Ascii.
From stdpp Require Import gmap strings list sorting.

Local Open Scope Z_scope.

(** ** Rows, requests and responses *)

(** [app.models.db.class_.Class]; the name [Class] is reserved, the module
    is named after the source file. *)
Module Class_.
Record t := mk {
    class_id : string;
    class_name : string;
    teacher_id : string;
    created_at : Z
}.
End Class_.

Module ClassNotice.
Record t := mk {
    id : Z;
    class_id : string;
    message : string;
    created_at : Z;
    updated_at : Z
}.
End ClassNotice.

Module ClassReq.
Record t := mk { className : string; teacherId : string }.
End ClassReq.

Module ClassNoticeReq.
Record t := mk { message : string }.
End ClassNoticeReq.

Module ClassResp.
Record t := mk {
    classId : string;
    className : string;
    teacherId : string;
    createdAt : Z
}.
End ClassResp.

Module ClassNoticeResp.
Record t := mk {
    id : Z;
    classId : string;
    message : string;
    createdAt : Z;
    updatedAt : Z
}.
End ClassNoticeResp.

(** The [ClassResp(...)] and [ClassNoticeResp(...)] constructions that close
    every handler. *)
Definition class_resp (r : Class_.t) : ClassResp.t :=
  ClassResp.mk (Class_.class_id r) (Class_.class_name r)
               (Class_.teacher_id r) (Class_.created_at r).

Definition notice_resp (r : ClassNotice.t) : ClassNoticeResp.t :=
  ClassNoticeResp.mk (ClassNotice.id r) (ClassNotice.class_id r)
                     (ClassNotice.message r) (ClassNotice.created_at r)
                     (ClassNotice.updated_at r).

(** What a handler binds to [result] and hands to the cache: [None], one
    [Class] row, or the list that [.scalars().all()] builds. *)
Inductive pyval :=
  | PyNone
  | PyClass (c : Class_.t)
  | PyList (l : list Class_.t).

Definition is_none (v : pyval) : bool :=
  match v with PyNone => true | _ => false end.

(** Python truth value: [None] and the empty list are false, a mapped row
    object is true. *)
Definition truthy (v : pyval) : bool :=
  match v with
  | PyNone => false
  | PyClass _ => true
  | PyList l => negb (bool_decide (l = []))
  end.

(** ** Exceptions, statements and the trace *)

Inductive exn :=
  | ClassCreationFailed
  | ClassNotFoundException
  | ClassNoticeCreationFailed
  | ClassNoticeNotFound
  | ClassNoticeUpdateFailed
  | ClassNoticeDeleteFailed
  | DBAPIError        (* whatever [session.execute] / [session.commit] raise *)
  | RedisError        (* whatever a call on [redis_cache] raises when the
                         cache does not answer (section 7) *)
  | AttributeError    (* attribute access on [None] or on a list *)
  | TypeError.        (* iteration over something that is not a list *)

Inductive class_stmt :=
  | InsertClass (class_id class_name teacher_id : string)
  | SelectClasses
  | SelectClassWhere (class_id : string).

Inductive notice_stmt :=
  | InsertNotice (class_id message : string)
  | SelectNoticesWhere (class_id : string)      (* ORDER BY created_at DESC *)
  | UpdateNotice (notice_id : Z) (class_id message : string)
  | DeleteNotice (notice_id : Z) (class_id : string).

Inductive stmt :=
  | OnClass (s : class_stmt)
  | OnNotice (s : notice_stmt).

Inductive level := DEBUG | ERROR.

(** One entry per call a handler makes on a collaborator, in program
    order. [ok] tells whether the store accepted the round trip. *)
Inductive event :=
  | EvScopeEnter
  | EvScopeExit (raised : bool)
  | EvExecute (s : stmt) (ok : bool)
  | EvCommit (ok : bool)
  | EvRollback
  | EvCacheExists (key : string)
  | EvCacheGet (key : string)
  | EvCacheSet (key : string) (value : pyval) (ttl : Z)
  | EvLog (lvl : level)
  | EvRaise (e : exn).

Definition is_db_event (e : event) : bool :=
  match e with
  | EvScopeEnter | EvScopeExit _ | EvExecute _ _ | EvCommit _ | EvRollback => true
  | _ => false
  end.

Definition is_query (e : event) : bool :=
  match e with EvExecute _ _ => true | _ => false end.

(** Number of statements sent to the database in a stretch of trace. *)
Definition db_queries (evs : list event) : nat :=
  length (filter (λ e, is_query e = true) evs).

(** ** The world *)

(** Modelled from the spec: the two persisted record kinds (section 6), the
    child identifier being generated by the store. The table definitions of
    [app.models.db.class_] are not part of the router. *)
Record Db := mkDb {
  classes : list Class_.t;
  notices : list ClassNotice.t;
  notice_seq : Z
}.

(** Modelled from the spec: a cache entry is a value with an expiry
    timestamp (section 3, Cache Entry). [app.core.redis] is not part of the
    router. *)
Record entry := mkEntry { value : pyval; expiry : Z }.

Record World := mkWorld {
  db : Db;                      (* committed state of the store *)
  sess : option Db;             (* pending state of the open unit of work *)
  cache : gmap string entry;
  now : Z;                      (* clock, in seconds *)
  faults : list bool;           (* per round trip: does the store raise? *)
  trace : list event
}.

Definition set_db (d : Db) (w : World) : World :=
  mkWorld d (sess w) (cache w) (now w) (faults w) (trace w).
Definition set_sess (s : option Db) (w : World) : World :=
  mkWorld (db w) s (cache w) (now w) (faults w) (trace w).
Definition set_cache (c : gmap string entry) (w : World) : World :=
  mkWorld (db w) (sess w) c (now w) (faults w) (trace w).
Definition set_faults (f : list bool) (w : World) : World :=
  mkWorld (db w) (sess w) (cache w) (now w) f (trace w).
Definition emit (e : event) (w : World) : World :=
  mkWorld (db w) (sess w) (cache w) (now w) (faults w) (trace w ++ [e]).

(** Time passing: between two requests, or before an await is answered. *)
Definition elapse (d : Z) (w : World) : World :=
  mkWorld (db w) (sess w) (cache w) (now w + d) (faults w) (trace w).

(** ** The monad of handlers *)

Inductive result (A : Type) :=
  | Ret (a : A)
  | Raise (e : exn).
Arguments Ret {A} a.
Arguments Raise {A} e.

Definition M (A : Type) : Type := World → result A * World.

(** [M] is a monad in the sense of stdpp's classes, which brings the
    [x ← m; k] and [m;; k] notations. *)
#[global] Instance M_ret : MRet M := λ A a w, (Ret a, w).

#[global] Instance M_bind : MBind M := λ A B k m w,
  match m w with
  | (Ret a, w') => k a w'
  | (Raise e, w') => (Raise e, w')
  end.

(** An exception coming out of a library call. *)
Definition throw {A} (e : exn) : M A := λ w, (Raise e, w).

(** A [raise] statement of the handler itself. *)
Definition raise {A} (e : exn) : M A := λ w, (Raise e, emit (EvRaise e) w).

(** [try: body except Exception as e: handler(e)]. *)
Definition try_except {A} (body : M A) (handler : exn → M A) : M A :=
  λ w, match body w with
       | (Ret a, w') => (Ret a, w')
       | (Raise e, w') => handler e w'
       end.

Definition tell (e : event) : M unit := λ w, (Ret tt, emit e w).

Definition logger_debug : M unit := tell (EvLog DEBUG).
Definition logger_error (e : exn) : M unit := tell (EvLog ERROR).

(** ** Session scope manager *)

(** Modelled from the spec: [AsyncScopedSession] (section 4.1) belongs to
    [app.core.db.session]. Entering the scope opens a unit of work on the
    committed state; leaving it commits what is pending when the block
    completed normally and rolls back when it raised, and releases the
    session either way. *)
Definition enter_scope : M unit :=
  λ w, (Ret tt, emit EvScopeEnter (set_sess (Some (db w)) w)).

Definition exit_scope (raised : bool) : M unit :=
  λ w, let d := if raised then db w else default (db w) (sess w) in
       (Ret tt, emit (EvScopeExit raised) (set_sess None (set_db d w))).

(** [async with AsyncScopedSession() as session: body]. *)
Definition with_session {A} (body : M A) : M A :=
  λ w, match (enter_scope;; body) w with
       | (Ret a, w') => (Ret a, snd (exit_scope false w'))
       | (Raise e, w') => (Raise e, snd (exit_scope true w'))
       end.

(** Every round trip to the store takes the next entry of the fault
    schedule: [true] means that the store raises (constraint violation,
    connection lost), an exhausted schedule means no fault. *)
Definition pop_fault : M bool :=
  λ w, match faults w with
       | [] => (Ret false, w)
       | b :: fs => (Ret b, set_faults fs w)
       end.

(** The pending state a statement runs against. *)
Definition pending (w : World) : Db := default (db w) (sess w).

(** ** Statements

    Modelled from the spec: the SQL that the router builds is run by the
    store; rows are kept in insertion order, [created_at] and [updated_at]
    are set by the store from its clock, and the identifier of a notice is
    drawn from a sequence. *)

Definition notice_matches (notice_id : Z) (class_id : string)
    (r : ClassNotice.t) : Prop :=
  ClassNotice.id r = notice_id ∧ ClassNotice.class_id r = class_id.

#[global] Instance notice_matches_dec nid cid r :
  Decision (notice_matches nid cid r).
Proof. unfold notice_matches. apply _. Defined.

(** Newest first: the order of [created_at.desc()]. *)
Definition newer_first (a b : ClassNotice.t) : Prop :=
  ClassNotice.created_at b ≤ ClassNotice.created_at a.

#[global] Instance newer_first_dec a b : Decision (newer_first a b).
Proof. unfold newer_first. apply _. Defined.

Definition run_class_stmt (s : class_stmt) (t : Z) (d : Db)
    : Db * list Class_.t :=
  match s with
  | InsertClass cid name teacher =>
      let r := Class_.mk cid name teacher t in
      (mkDb (classes d ++ [r]) (notices d) (notice_seq d), [r])
  | SelectClasses => (d, classes d)
  | SelectClassWhere cid =>
      (d, filter (λ r, Class_.class_id r = cid) (classes d))
  end.

Definition set_message (msg : string) (t : Z) (r : ClassNotice.t)
    : ClassNotice.t :=
  ClassNotice.mk (ClassNotice.id r) (ClassNotice.class_id r) msg
                 (ClassNotice.created_at r) t.

Definition run_notice_stmt (s : notice_stmt) (t : Z) (d : Db)
    : Db * list ClassNotice.t :=
  match s with
  | InsertNotice cid msg =>
      let r := ClassNotice.mk (notice_seq d) cid msg t t in
      (mkDb (classes d) (notices d ++ [r]) (notice_seq d + 1), [r])
  | SelectNoticesWhere cid =>
      (d, merge_sort newer_first
            (filter (λ r, ClassNotice.class_id r = cid) (notices d)))
  | UpdateNotice nid cid msg =>
      let upd r := if decide (notice_matches nid cid r)
                   then set_message msg t r else r in
      (mkDb (classes d) (upd <$> notices d) (notice_seq d),
       set_message msg t <$> filter (notice_matches nid cid) (notices d))
  | DeleteNotice nid cid =>
      (mkDb (classes d)
            (filter (λ r, ¬ notice_matches nid cid r) (notices d))
            (notice_seq d),
       filter (notice_matches nid cid) (notices d))
  end.

(** [await session.execute(stmt)], returning the rows of [RETURNING] or of
    the [SELECT]. *)
Definition execute {A} (label : stmt) (run : Z → Db → Db * list A)
    : M (list A) :=
  fault ← pop_fault;
  if fault : bool then
    tell (EvExecute label false);; throw DBAPIError
  else
    λ w, let '(d, rows) := run (now w) (pending w) in
         (Ret rows, emit (EvExecute label true) (set_sess (Some d) w)).

Definition execute_class (s : class_stmt) : M (list Class_.t) :=
  execute (OnClass s) (run_class_stmt s).

Definition execute_notice (s : notice_stmt) : M (list ClassNotice.t) :=
  execute (OnNotice s) (run_notice_stmt s).

(** [await session.commit()] and [await session.rollback()]. *)
Definition commit : M unit :=
  fault ← pop_fault;
  if fault : bool then
    tell (EvCommit false);; throw DBAPIError
  else
    λ w, (Ret tt, emit (EvCommit true) (set_sess (Some (pending w)) (set_db (pending w) w))).

Definition rollback : M unit :=
  λ w, (Ret tt, emit EvRollback (set_sess (Some (db w)) w)).

(** [.scalar()]: the first row, or [None]. *)
Definition scalar {A} (rows : list A) : option A := head rows.

(** ** Read-through cache *)

(** Modelled from the spec: [redis_cache] of [app.core.redis] (section 4.2).
    [get] returns the value of an entry that is present and not expired and
    [None] otherwise; [set] stores the value with expiry [now + ttl] over
    whatever was at the key; [exists] tells whether a non-expired entry is
    present. *)
Definition live (t : Z) (e : entry) : bool := bool_decide (t < expiry e).

Definition redis_get (key : string) (t : Z) (c : gmap string entry) : pyval :=
  match c !! key with
  | Some e => if live t e then value e else PyNone
  | None => PyNone
  end.

Definition redis_exists (key : string) (t : Z) (c : gmap string entry) : bool :=
  match c !! key with
  | Some e => live t e
  | None => false
  end.

Definition redis_set (key : string) (v : pyval) (ttl : Z) (t : Z)
    (c : gmap string entry) : gmap string entry :=
  <[key := mkEntry v (t + ttl)]> c.

Module redis_cache.
Definition get (key : string) : M pyval :=
  λ w, (Ret (redis_get key (now w) (cache w)), emit (EvCacheGet key) w).

Definition exists_ (key : string) : M bool :=
  λ w, (Ret (redis_exists key (now w) (cache w)), emit (EvCacheExists key) w).

Definition set (key : string) (v : pyval) (ttl : Z) : M unit :=
  λ w, (Ret tt, emit (EvCacheSet key v ttl)
                  (set_cache (redis_set key v ttl (now w) (cache w)) w)).
End redis_cache.

(** Modelled from the spec: [key_builder] of [app.core.redis] derives the
    key from the operation name followed by its ordered arguments
    (section 3, Cache Key); the parts are joined with [":"]. *)
Definition sep : ascii := ":"%char.

Fixpoint join_args (args : list string) : string :=
  match args with
  | [] => ""
  | a :: rest => String sep a +:+ join_args rest
  end.

Definition key_builder (operation : string) (args : list string) : string :=
  operation +:+ join_args args.

(** ** The handlers of the router *)

(** Attribute access on [result] when building the response: [None] has
    no [class_id]. *)
Definition the_row {A} (result : option A) : M A :=
  match result with
  | Some r => mret r
  | None => throw AttributeError
  end.

(** [POST ""]. [uuid] is the value that [uuid4().hex] draws. *)
Definition create_class (uuid : string) (request_body : ClassReq.t)
    : M ClassResp.t :=
  let class_id := uuid in
  result ← with_session (
    try_except
      (rows ← execute_class
                (InsertClass class_id (ClassReq.className request_body)
                             (ClassReq.teacherId request_body));
       let result := scalar rows in
       commit;;
       mret result)
      (λ e, logger_error e;; rollback;; raise ClassCreationFailed));
  r ← the_row result;
  mret (class_resp r).

(** [GET "/list"]. *)
Definition read_class_list : M (list ClassResp.t) :=
  let _key := key_builder "read_class_list" [] in
  hit ← redis_cache.exists_ _key;
  result ← (if hit : bool then
              result ← redis_cache.get _key;
              logger_debug;;
              mret result
            else
              logger_debug;;
              with_session (
                rows ← execute_class SelectClasses;
                let result := PyList rows in
                (if negb (is_none result)
                 then redis_cache.set _key result 60
                 else mret tt);;
                logger_debug;;
                mret result));
  match result with
  | PyNone => raise ClassNotFoundException
  | PyList l => mret (class_resp <$> l)
  | PyClass _ => throw TypeError
  end.

(** The value [.scalar()] binds to [result]. *)
Definition py_scalar (rows : list Class_.t) : pyval :=
  match scalar rows with
  | Some r => PyClass r
  | None => PyNone
  end.

(** [GET "/{class_id}"]. *)
Definition read_class (class_id : string) : M ClassResp.t :=
  let _key := key_builder "read_class" [class_id] in
  cached ← redis_cache.get _key;
  result ← (if truthy cached then
              logger_debug;;
              redis_cache.get _key
            else
              result ← with_session (
                rows ← execute_class (SelectClassWhere class_id);
                mret (py_scalar rows));
              redis_cache.set _key result 60;;
              mret result);
  match result with
  | PyNone => raise ClassNotFoundException
  | PyClass r => mret (class_resp r)
  | PyList _ => throw AttributeError
  end.

(** [POST "/notice/{class_id}"]. *)
Definition create_class_notice (class_id : string)
    (request_body : ClassNoticeReq.t) : M ClassNoticeResp.t :=
  result ← with_session (
    try_except
      (rows ← execute_notice
                (InsertNotice class_id (ClassNoticeReq.message request_body));
       let result := scalar rows in
       commit;;
       mret result)
      (λ e, logger_error e;; rollback;; raise ClassNoticeCreationFailed));
  r ← the_row result;
  mret (notice_resp r).

(** [GET "/notice/{class_id}/list"]. *)
Definition read_class_notice_list (class_id : string)
    : M (list ClassNoticeResp.t) :=
  result ← with_session (execute_notice (SelectNoticesWhere class_id));
  if bool_decide (result = [])
  then raise ClassNoticeNotFound
  else mret (notice_resp <$> result).

(** [PUT "/notice/{class_id}/{notice_id}"]: the not-found test sits inside
    the session block. *)
Definition update_class_notice (class_id : string) (notice_id : Z)
    (request_body : ClassNoticeReq.t) : M ClassNoticeResp.t :=
  result ← with_session (
    result ← try_except
      (rows ← execute_notice
                (UpdateNotice notice_id class_id
                              (ClassNoticeReq.message request_body));
       let result := scalar rows in
       commit;;
       mret result)
      (λ e, logger_error e;; rollback;; raise ClassNoticeUpdateFailed);
    (if bool_decide (result = None)
     then raise ClassNoticeNotFound
     else mret tt);;
    mret result);
  r ← the_row result;
  mret (notice_resp r).

(** [DELETE "/notice/{class_id}/{notice_id}"]: the not-found test sits after
    the session block. *)
Definition delete_class_notice (class_id : string) (notice_id : Z)
    : M ClassNoticeResp.t :=
  result ← with_session (
    try_except
      (rows ← execute_notice (DeleteNotice notice_id class_id);
       let result := scalar rows in
       commit;;
       mret result)
      (λ e, logger_error e;; rollback;; raise ClassNoticeDeleteFailed));
  (if bool_decide (result = None)
   then raise ClassNoticeNotFound
   else mret tt);;
  r ← the_row result;
  mret (notice_resp r).

(** ** The cached reads, await by await

    Every call on the cache or on the store is an await: time passes before
    it is answered, and the cache may fail to answer. [read_class_list] and
    [read_class] above are the two handlers when each await is answered at
    once by a cache that is up. Below they take a pace, which gives for
    every await of the call, in program order, the time that passes before
    it and whether the cache fails on it. The other handlers read the clock
    in a single await, so that the time their awaits take is time that
    passes before and after the call. *)

Definition gap (p : list (Z * bool)) (i : nat) : Z :=
  default 0 (fst <$> p !! i).

Definition cache_down (p : list (Z * bool)) (i : nat) : bool :=
  default false (snd <$> p !! i).

(** A pace in which time does not run backwards. *)
Definition forward (p : list (Z * bool)) : Prop := Forall (λ x, 0 ≤ x.1) p.

Definition pause (d : Z) : M unit := λ w, (Ret tt, elapse d w).

(** The [i]-th await of a call, on the cache and on the store. No call on
    the cache sits in a [try]: its exception leaves the handler. *)
Module paced.
Definition get (p : list (Z * bool)) (i : nat) (key : string) : M pyval :=
  pause (gap p i);;
  if cache_down p i
  then tell (EvCacheGet key);; throw RedisError
  else redis_cache.get key.

Definition exists_ (p : list (Z * bool)) (i : nat) (key : string) : M bool :=
  pause (gap p i);;
  if cache_down p i
  then tell (EvCacheExists key);; throw RedisError
  else redis_cache.exists_ key.

Definition set (p : list (Z * bool)) (i : nat) (key : string) (v : pyval)
    (ttl : Z) : M unit :=
  pause (gap p i);;
  if cache_down p i
  then tell (EvCacheSet key v ttl);; throw RedisError
  else redis_cache.set key v ttl.

Definition store {A} (p : list (Z * bool)) (i : nat) (call : M A) : M A :=
  pause (gap p i);; call.
End paced.

(** [GET "/list"], await by await. *)
Definition read_class_list_paced (p : list (Z * bool))
    : M (list ClassResp.t) :=
  let _key := key_builder "read_class_list" [] in
  hit ← paced.exists_ p 0 _key;
  result ← (if hit : bool then
              result ← paced.get p 1 _key;
              logger_debug;;
              mret result
            else
              logger_debug;;
              with_session (
                rows ← paced.store p 1 (execute_class SelectClasses);
                let result := PyList rows in
                (if negb (is_none result)
                 then paced.set p 2 _key result 60
                 else mret tt);;
                logger_debug;;
                mret result));
  match result with
  | PyNone => raise ClassNotFoundException
  | PyList l => mret (class_resp <$> l)
  | PyClass _ => throw TypeError
  end.

(** [GET "/{class_id}"], await by await. *)
Definition read_class_paced (class_id : string) (p : list (Z * bool))
    : M ClassResp.t :=
  let _key := key_builder "read_class" [class_id] in
  cached ← paced.get p 0 _key;
  result ← (if truthy cached then
              logger_debug;;
              paced.get p 1 _key
            else
              result ← with_session (
                rows ← paced.store p 1
                         (execute_class (SelectClassWhere class_id));
                mret (py_scalar rows));
              paced.set p 2 _key result 60;;
              mret result);
  match result with
  | PyNone => raise ClassNotFoundException
  | PyClass r => mret (class_resp r)
  | PyList _ => throw AttributeError
  end.

(** ** Vocabulary of the properties *)

(** *** Store *)

(** The next [n] round trips to the store go through. *)
Definition calm (n : nat) (fs : list bool) : bool := forallb negb (take n fs).

(** The rows of [SELECT ... WHERE class_id = :class_id]. *)
Definition rows_of_class (class_id : string) (d : Db) : list Class_.t :=
  filter (λ r, Class_.class_id r = class_id) (classes d).

(** The committed store after [DELETE ... WHERE id = nid AND class_id = cid]. *)
Definition delete_rows (nid : Z) (cid : string) (d : Db) : Db :=
  mkDb (classes d) (filter (λ r, ¬ notice_matches nid cid r) (notices d))
       (notice_seq d).

(** Newest first, on the responses. *)
Definition newer_first_resp (a b : ClassNoticeResp.t) : Prop :=
  ClassNoticeResp.createdAt b ≤ ClassNoticeResp.createdAt a.

(** The primary key of the notices: identifiers are pairwise distinct and
    below the next value of the sequence. *)
Definition ids_ok (nts : list ClassNotice.t) (seq : Z) : Prop :=
  NoDup (ClassNotice.id <$> nts) ∧ ∀ r, r ∈ nts → ClassNotice.id r < seq.

Definition notice_ids_ok (d : Db) : Prop := ids_ok (notices d) (notice_seq d).

(** *** Trace *)

(** What a call appended to the trace. *)
Definition events_since (w w' : World) : list event :=
  drop (length (trace w)) (trace w').

(** The store and session events of a stretch of trace. *)
Definition db_events (evs : list event) : list event :=
  filter (λ e, is_db_event e = true) evs.

(** Outcome of a write whose unit of work failed: the narrow error [e]
    reaches the caller after the rollback, and neither the committed store
    nor the cache differ from what they were; no session stays open. *)
Definition failed_write {A} (e : exn) (w : World) (out : result A * World)
    : Prop :=
  out.1 = Raise e ∧
  [EvRollback; EvRaise e; EvScopeExit true] `suffix_of` events_since w out.2 ∧
  db out.2 = db w ∧ sess out.2 = None ∧ cache out.2 = cache w.

(** *** Keys and cache slots *)

(** A string in which the separator of keys does not occur. *)
Fixpoint sep_free (s : string) : bool :=
  match s with
  | EmptyString => true
  | String a rest => negb (bool_decide (a = sep)) && sep_free rest
  end.

(** The keys of the two cached reads. *)
Definition list_key : string := key_builder "read_class_list" [].

Definition class_key (class_id : string) : string :=
  key_builder "read_class" [class_id].

(** The tests by which the two cached reads decide between cache and store. *)
Definition hits_class (class_id : string) (w : World) : bool :=
  truthy (redis_get (class_key class_id) (now w) (cache w)).

Definition hits_list (w : World) : bool :=
  redis_exists list_key (now w) (cache w).

(** Time left to the entry at [key]; none for a slot that is empty. *)
Definition ttl_left (key : string) (w : World) : Z :=
  match cache w !! key with
  | Some e => expiry e - now w
  | None => 0
  end.

(** The slot of the class list, when filled, holds a list. *)
Definition list_slot_ok (c : gmap string entry) : Prop :=
  ∀ e, c !! list_key = Some e → ∃ l, value e = PyList l.

(** *** Requests *)

(** The requests the router serves, and the world after serving one. *)
Inductive request :=
  | CreateClass (uuid : string) (request_body : ClassReq.t)
  | ReadClassList
  | ReadClass (class_id : string)
  | CreateClassNotice (class_id : string) (request_body : ClassNoticeReq.t)
  | ReadClassNoticeList (class_id : string)
  | UpdateClassNotice (class_id : string) (notice_id : Z)
      (request_body : ClassNoticeReq.t)
  | DeleteClassNotice (class_id : string) (notice_id : Z).

Definition serve (r : request) (w : World) : World :=
  match r with
  | CreateClass uuid body => (create_class uuid body w).2
  | ReadClassList => (read_class_list w).2
  | ReadClass cid => (read_class cid w).2
  | CreateClassNotice cid body => (create_class_notice cid body w).2
  | ReadClassNoticeList cid => (read_class_notice_list cid w).2
  | UpdateClassNotice cid nid body => (update_class_notice cid nid body w).2
  | DeleteClassNotice cid nid => (delete_class_notice cid nid w).2
  end.

(** Worlds that the service can be in: it starts with an empty cache, on
    any store, clock and fault schedule, and then serves requests while time
    passes, between the requests and, for the cached reads, between the
    awaits of one request. *)
Inductive reachable : World → Prop :=
  | reach_start w : cache w = ∅ → reachable w
  | reach_serve w r : reachable w → reachable (serve r w)
  | reach_read_class w cid p :
      reachable w → forward p → reachable (read_class_paced cid p w).2
  | reach_read_class_list w p :
      reachable w → forward p → reachable (read_class_list_paced p w).2
  | reach_elapse w d : reachable w → 0 ≤ d → reachable (elapse d w).

(** *** Sample worlds *)

(** A service that has just started: empty store, empty cache, no fault
    scheduled. *)
Definition fresh_world : World := mkWorld (mkDb [] [] 1) None ∅ 0 [] [].

(** A store with one class and two notices. *)
Definition algebra : Class_.t := Class_.mk "c0ffee" "Algebra I" "teacher-42" 5.
Definition hello : ClassNotice.t := ClassNotice.mk 1 "c0ffee" "hello" 6 6.
Definition exam : ClassNotice.t := ClassNotice.mk 2 "c0ffee" "exam" 8 9.
Definition school : World :=
  mkWorld (mkDb [algebra] [hello; exam] 3) None ∅ 10 [] [].

(** The same, with the store about to reject a round trip. *)
Definition outage : World := set_faults [true] school.

(** *** Writes that go through, other entry points, errors *)

(** The row that [create_class] inserts, and the store with it. *)
Definition new_class (uuid : string) (body : ClassReq.t) (t : Z) : Class_.t :=
  Class_.mk uuid (ClassReq.className body) (ClassReq.teacherId body) t.

Definition with_class (r : Class_.t) (d : Db) : Db :=
  mkDb (classes d ++ [r]) (notices d) (notice_seq d).

(** The row that [create_class_notice] inserts, and the store with it. *)
Definition new_notice (cid : string) (body : ClassNoticeReq.t) (d : Db) (t : Z)
    : ClassNotice.t :=
  ClassNotice.mk (notice_seq d) cid (ClassNoticeReq.message body) t t.

Definition with_notice (r : ClassNotice.t) (d : Db) : Db :=
  mkDb (classes d) (notices d ++ [r]) (notice_seq d + 1).

(** The rows of [SELECT ... WHERE class_id = :class_id ORDER BY created_at
    DESC]. *)
Definition notices_of_class (class_id : string) (d : Db) : list ClassNotice.t :=
  merge_sort newer_first
    (filter (λ r, ClassNotice.class_id r = class_id) (notices d)).

(** The store after [UPDATE ... SET message = :msg WHERE id = nid AND
    class_id = cid] at time [t]. *)
Definition update_rows (nid : Z) (cid msg : string) (t : Z) (d : Db) : Db :=
  mkDb (classes d)
       ((λ r, if decide (notice_matches nid cid r)
              then set_message msg t r else r) <$> notices d)
       (notice_seq d).

(** [GET "/session/test"] of [app/main.py]: four session blocks in a row,
    each logging its session. *)
Definition session_test : M unit :=
  with_session logger_debug;;
  with_session logger_debug;;
  with_session logger_debug;;
  with_session logger_debug.

(** The requests that are answered through the cache, and those that only
    read. *)
Definition uses_cache (r : request) : bool :=
  match r with
  | ReadClass _ | ReadClassList => true
  | _ => false
  end.

Definition is_read (r : request) : bool :=
  match r with
  | ReadClass _ | ReadClassList | ReadClassNoticeList _ => true
  | _ => false
  end.

Definition is_cache_event (e : event) : bool :=
  match e with
  | EvCacheExists _ | EvCacheGet _ | EvCacheSet _ _ _ => true
  | _ => false
  end.

Definition cache_events (evs : list event) : list event :=
  filter (λ e, is_cache_event e = true) evs.

(** Session discipline of a stretch of trace: scopes are entered and left
    in turn, without nesting; statements, commits and rollbacks occur inside
    a scope only; no scope is left open at the end. *)
Fixpoint well_scoped (inside : bool) (evs : list event) : bool :=
  match evs with
  | [] => negb inside
  | EvScopeEnter :: rest => negb inside && well_scoped true rest
  | EvScopeExit _ :: rest => inside && well_scoped false rest
  | (EvExecute _ _ | EvCommit _ | EvRollback) :: rest =>
      inside && well_scoped inside rest
  | _ :: rest => well_scoped inside rest
  end.

(** Serving requests one after the other. *)
Definition serve_all (rs : list request) (w : World) : World :=
  foldl (λ w r, serve r w) w rs.

(** A read that fails on the store: the exception of the store reaches the
    caller as it is, after the scope was left; the handler neither rolls
    back nor raises an error of its own, and store and cache are what they
    were. *)
Definition raw_failure {A} (w : World) (out : result A * World) : Prop :=
  out.1 = Raise DBAPIError ∧
  db out.2 = db w ∧ cache out.2 = cache w ∧ sess out.2 = None ∧
  (EvRollback ∉ events_since w out.2) ∧
  (∀ e, EvRaise e ∉ events_since w out.2).





(** The school one second before the cached class list expires. *)
Definition late_school : World := elapse 59 (serve ReadClassList school).

(** A pace on which the second await is answered a second after the
    first, and one with awaits that take their time. *)
Definition slow_get : list (Z * bool) := [(0, false); (1, false)].
Definition unhurried : list (Z * bool) := [(1, false); (2, false); (3, false)].

(** A request body for a second class, and one for a notice. *)
Definition algebra2 : ClassReq.t := ClassReq.mk "Algebra II" "teacher-7".
Definition moved : ClassNoticeReq.t := ClassNoticeReq.mk "moved".

(** ** Running a handler on a symbolic world *)

Ltac run_handler :=
  cbv beta iota zeta delta
    [create_class create_class_notice update_class_notice
     delete_class_notice read_class read_class_list read_class_notice_list
     read_class_paced read_class_list_paced paced.get paced.exists_
     paced.set paced.store pause
     with_session try_except execute_class execute_notice execute commit
     rollback pop_fault tell throw raise enter_scope exit_scope
     logger_debug logger_error the_row py_scalar scalar
     redis_cache.get redis_cache.set redis_cache.exists_
     pending emit set_db set_sess set_cache set_faults elapse
     mbind M_bind mret M_ret fst snd default from_option id
     run_class_stmt run_notice_stmt is_none negb
     db sess cache now faults trace classes notices notice_seq].

(** Case analysis on the first two entries of the fault schedule. *)
Ltac split_faults w :=
  let f := fresh "f" in
  destruct w as [[cls nts seq] ? ? ? f ?];
  cbv beta iota delta [db sess cache now faults trace classes notices
                       notice_seq] in *;
  destruct f as [|[] [|[] f]]; try discriminate.

(** All paths of a handler: the fault schedule, then the tests on the cache
    and on the rows. *)
Ltac all_paths w :=
  split_faults w; run_handler;
  repeat (case_bool_decide || case_match); simplify_eq/=;
  rewrite <- ?app_assoc.

(** An event that is none of the events of an explicit trace. *)
Ltac not_in_trace :=
  unfold not; intros;
  lazymatch goal with
  | H : _ ∈ _ |- False =>
      repeat (apply elem_of_cons in H as [H|H]; [discriminate H|]);
      by apply elem_of_nil in H
  end.

(** The empty pace: no time passes and the cache is up. *)
Ltac nil_pace :=
  change (gap [] 0%nat) with 0; change (gap [] 1%nat) with 0;
  change (gap [] 2%nat) with 0;
  change (cache_down [] 0%nat) with false;
  change (cache_down [] 1%nat) with false;
  change (cache_down [] 2%nat) with false;
  cbv beta iota; rewrite ?Z.add_0_r.

(** An outcome other than the one asked about, or a condition that fails. *)
Ltac other_outcome :=
  split; [intros ?; simplify_eq|intros (? & ? & ? & ?); congruence].

(** ** The monad *)

Lemma M_left_id {A B} (a : A) (k : A → M B) w : (mret a ≫= k) w = k a w.
Proof. done. Qed.

Lemma M_right_id {A} (m : M A) w : (m ≫= mret) w = m w.
Proof. unfold mbind, M_bind, mret, M_ret. by destruct (m w) as [[a|e] w']. Qed.

Lemma M_assoc {A B C} (m : M A) (k : A → M B) (h : B → M C) w :
  ((m ≫= k) ≫= h) w = (m ≫= λ a, k a ≫= h) w.
Proof. unfold mbind, M_bind. by destruct (m w) as [[a|e] w']. Qed.

(** A handler of [try_except] sees the exception and the state in which it
    was raised; a body that returns is left alone. *)
Lemma try_except_raise {A} (body : M A) handler e w w' :
  body w = (Raise e, w') → try_except body handler w = handler e w'.
Proof. unfold try_except. by intros ->. Qed.

Lemma try_except_ret {A} (body : M A) handler a w w' :
  body w = (Ret a, w') → try_except body handler w = (Ret a, w').
Proof. unfold try_except. by intros ->. Qed.

(** ** Traces and filters *)

Lemma events_since_app w w' evs :
  trace w' = trace w ++ evs → events_since w w' = evs.
Proof. unfold events_since. intros ->. by rewrite drop_app_length. Qed.

Lemma filter_none {A} (P : A → Prop) `{!∀ x, Decision (P x)} (l : list A) :
  (∀ x, x ∈ l → ¬ P x) → filter P l = [].
Proof.
  induction l as [|x l IH]; intros Hno; [done|].
  rewrite filter_cons_False; [|apply Hno; left].
  apply IH. intros y Hy. apply Hno. by right.
Qed.

(** ** Unit of work and errors *)

(** C2. When the store raises during the statement or the commit of a
    write handler ([create_class], [create_class_notice],
    [update_class_notice], [delete_class_notice]), the handler rolls the
    unit of work back, then raises its Creation/Update/Delete-Failed error,
    and the committed store is what it was before the call. *)
Theorem write_failure_rolls_back w uuid creq cid nid nreq :
  calm 2 (faults w) = false →
  failed_write ClassCreationFailed w (create_class uuid creq w) ∧
  failed_write ClassNoticeCreationFailed w (create_class_notice cid nreq w) ∧
  failed_write ClassNoticeUpdateFailed w (update_class_notice cid nid nreq w) ∧
  failed_write ClassNoticeDeleteFailed w (delete_class_notice cid nid w).
Proof.
  intros Hf. unfold failed_write, events_since.
  split_faults w; run_handler; rewrite <- !app_assoc, !drop_app_length;
    repeat split;
    first [by eexists [_; _; _] | by eexists [_; _; _; _]].
Qed.

Lemma calm_drop n m fs :
  calm (n + m) fs = true → calm n fs = true ∧ calm m (drop n fs) = true.
Proof.
  unfold calm. revert fs. induction n as [|n IH]; intros fs; simpl.
  - by rewrite drop_0.
  - destruct fs as [|b fs]; simpl; [by rewrite take_nil|].
    destruct b; simpl; [done|]. apply IH.
Qed.

Lemma update_no_match nid cid msg t (l : list ClassNotice.t) :
  (∀ r, r ∈ l → ¬ notice_matches nid cid r) →
  (λ r, if decide (notice_matches nid cid r)
        then set_message msg t r else r) <$> l = l.
Proof.
  induction l as [|x l IH]; intros Hno; [done|].
  rewrite fmap_cons, IH by (intros y Hy; apply Hno; by right).
  rewrite decide_False; [done|]. apply Hno. left.
Qed.

(** The primary key picks the row: with distinct identifiers, the first
    row that matches is the row looked for. *)
Lemma head_filter_unique nid cid r (l : list ClassNotice.t) :
  NoDup (ClassNotice.id <$> l) → r ∈ l → notice_matches nid cid r →
  head (filter (notice_matches nid cid) l) = Some r.
Proof.
  induction l as [|x l IH]; intros Hnd Hin Hm; [by apply elem_of_nil in Hin|].
  rewrite fmap_cons in Hnd. apply NoDup_cons in Hnd as [Hx Hnd].
  apply elem_of_cons in Hin as [->|Hin].
  - by rewrite filter_cons_True.
  - rewrite filter_cons_False; [by apply IH|].
    intros [Hid _]. apply Hx. apply list_elem_of_fmap. exists r.
    destruct Hm as [Hr _]. split; [congruence|done].
Qed.

(** C3. When no notice has the given identifier under the given class and
    the store accepts the statement and the commit, [update_class_notice]
    raises [ClassNoticeNotFound]: the trace shows the statement, the
    successful commit and only then the raise, with no rollback by the
    handler, and the committed store is the one before the call. *)
Theorem update_missing_notice_not_found w cid nid req :
  calm 2 (faults w) = true →
  (∀ r, r ∈ notices (db w) → ¬ notice_matches nid cid r) →
  update_class_notice cid nid req w =
    (Raise ClassNoticeNotFound,
     mkWorld (db w) None (cache w) (now w) (drop 2 (faults w))
       (trace w ++
        [EvScopeEnter;
         EvExecute
           (OnNotice (UpdateNotice nid cid (ClassNoticeReq.message req))) true;
         EvCommit true;
         EvRaise ClassNoticeNotFound;
         EvScopeExit true])).
Proof.
  intros Hf Hno.
  split_faults w; run_handler;
    rewrite (filter_none _ _ Hno), (update_no_match _ _ _ _ _ Hno); simpl;
    by rewrite <- !app_assoc.
Qed.

Lemma delete_class_notice_found w cid nid r :
  calm 2 (faults w) = true →
  head (filter (notice_matches nid cid) (notices (db w))) = Some r →
  delete_class_notice cid nid w =
    (Ret (notice_resp r),
     mkWorld (delete_rows nid cid (db w)) None (cache w) (now w)
       (drop 2 (faults w))
       (trace w ++ [EvScopeEnter;
                    EvExecute (OnNotice (DeleteNotice nid cid)) true;
                    EvCommit true;
                    EvScopeExit false])).
Proof.
  intros Hf Hr.
  split_faults w; run_handler; rewrite Hr; simpl;
    by rewrite <- !app_assoc.
Qed.

Lemma delete_class_notice_missing w cid nid :
  calm 2 (faults w) = true →
  (∀ r, r ∈ notices (db w) → ¬ notice_matches nid cid r) →
  delete_class_notice cid nid w =
    (Raise ClassNoticeNotFound,
     mkWorld (delete_rows nid cid (db w)) None (cache w) (now w)
       (drop 2 (faults w))
       (trace w ++ [EvScopeEnter;
                    EvExecute (OnNotice (DeleteNotice nid cid)) true;
                    EvCommit true;
                    EvScopeExit false;
                    EvRaise ClassNoticeNotFound])).
Proof.
  intros Hf Hno.
  split_faults w; run_handler; rewrite (filter_none _ _ Hno); simpl;
    by rewrite <- !app_assoc.
Qed.

Lemma newer_first_total : Total newer_first.
Proof. intros a b. unfold newer_first. lia. Qed.

Lemma read_class_notice_list_rows w cid l :
  (read_class_notice_list cid w).1 = Ret l →
  l = notice_resp <$> merge_sort newer_first
        (filter (λ r, ClassNotice.class_id r = cid) (notices (db w))).
Proof.
  destruct w as [[cls nts seq] s c t [|[] f] tr]; run_handler;
    try discriminate;
    (case_bool_decide; simpl; [discriminate|]); by intros [= <-].
Qed.

(** C8. The list that [read_class_notice_list] returns is ordered by
    creation timestamp, newest first, and holds the notices of the class. *)
Theorem notice_list_newest_first w cid l :
  (read_class_notice_list cid w).1 = Ret l →
  Sorted newer_first_resp l ∧
  l ≡ₚ notice_resp <$>
         filter (λ r, ClassNotice.class_id r = cid) (notices (db w)).
Proof.
  intros ->%read_class_notice_list_rows. split.
  - apply (Sorted_fmap _ newer_first); [by intros|].
    apply Sorted_merge_sort, newer_first_total.
  - by rewrite merge_sort_Permutation.
Qed.

(** C10. For a class without notices, the store answering the query,
    [read_class_notice_list] raises [ClassNoticeNotFound]: the empty result
    is taken for absence. *)
Theorem empty_notice_list_not_found w cid :
  calm 1 (faults w) = true →
  (∀ r, r ∈ notices (db w) → ClassNotice.class_id r ≠ cid) →
  read_class_notice_list cid w =
    (Raise ClassNoticeNotFound,
     mkWorld (db w) None (cache w) (now w) (drop 1 (faults w))
       (trace w ++ [EvScopeEnter;
                    EvExecute (OnNotice (SelectNoticesWhere cid)) true;
                    EvScopeExit false;
                    EvRaise ClassNoticeNotFound])).
Proof.
  intros Hf Hno.
  destruct w as [[cls nts seq] s c t [|[] f] tr]; try discriminate;
    run_handler; rewrite (filter_none _ _ Hno); simpl;
    by rewrite <- !app_assoc.
Qed.

(** ** Cache *)

Lemma redis_get_set_live k v ttl t d (c : gmap string entry) :
  d < ttl → redis_get k (t + d) (redis_set k v ttl t c) = v.
Proof.
  intros Hd. unfold redis_get, redis_set, live.
  rewrite lookup_insert_eq. simpl. rewrite bool_decide_eq_true_2; [done|lia].
Qed.

Lemma redis_get_set_expired k v ttl t d (c : gmap string entry) :
  ttl ≤ d →
  redis_get k (t + d) (redis_set k v ttl t c) = PyNone ∧
  redis_exists k (t + d) (redis_set k v ttl t c) = false.
Proof.
  intros Hd. unfold redis_get, redis_exists, redis_set, live.
  rewrite lookup_insert_eq. simpl. rewrite bool_decide_eq_false_2; [done|lia].
Qed.

(** C7. After [set(K, V, ttl)], [get(K)] returns [V] as long as less than
    [ttl] has elapsed, and signals absence ([None], and [exists] false)
    once [ttl] has elapsed; a [set] replaces whatever entry was at [K]. *)
Theorem cache_round_trip w k v ttl d :
  let w1 := (redis_cache.set k v ttl w).2 in
  (d < ttl → (redis_cache.get k (elapse d w1)).1 = Ret v) ∧
  (ttl ≤ d → (redis_cache.get k (elapse d w1)).1 = Ret PyNone ∧
             (redis_cache.exists_ k (elapse d w1)).1 = Ret false) ∧
  (∀ v' ttl', cache (redis_cache.set k v' ttl' w1).2
              = cache (redis_cache.set k v' ttl' w).2).
Proof.
  simpl. split; [|split].
  - intros Hd. by rewrite redis_get_set_live.
  - intros Hd. by destruct (redis_get_set_expired k v ttl (now w) d (cache w) Hd)
      as [-> ->].
  - intros v' ttl'. unfold redis_set. apply insert_insert_eq.
Qed.

(** ** Keys *)

Lemma append_sep_free_inj (a b x y : string) :
  sep_free a = true → sep_free b = true →
  (x = "" ∨ ∃ x', x = String sep x') → (y = "" ∨ ∃ y', y = String sep y') →
  a +:+ x = b +:+ y → a = b ∧ x = y.
Proof.
  revert b. induction a as [|ca a IH]; intros [|cb b] Ha Hb Hx Hy Heq;
    simpl in *.
  - done.
  - destruct Hx as [->|[x' ->]]; [done|]. injection Heq as <- _.
    by rewrite bool_decide_eq_true_2 in Hb.
  - destruct Hy as [->|[y' ->]]; [done|]. injection Heq as -> _.
    by rewrite bool_decide_eq_true_2 in Ha.
  - injection Heq as -> Heq.
    apply andb_prop in Ha as [_ Ha]. apply andb_prop in Hb as [_ Hb].
    destruct (IH b Ha Hb Hx Hy Heq) as [-> ->]. done.
Qed.

Lemma join_args_shape args :
  join_args args = "" ∨ ∃ x, join_args args = String sep x.
Proof. destruct args; simpl; eauto. Qed.

Lemma join_args_inj args args' :
  forallb sep_free args = true → forallb sep_free args' = true →
  join_args args = join_args args' → args = args'.
Proof.
  revert args'. induction args as [|a args IH]; intros [|a' args'] Ha Ha' Heq;
    simpl in *; try done.
  apply andb_prop in Ha as [Ha Hr]. apply andb_prop in Ha' as [Ha' Hr'].
  injection Heq as Heq.
  apply append_sep_free_inj in Heq as [-> Heq];
    auto using join_args_shape.
  f_equal. by apply IH.
Qed.

Lemma append_inj_l (a x y : string) : a +:+ x = a +:+ y → x = y.
Proof.
  induction a as [|c a IH]; simpl; [done|]. intros [= H]. by apply IH.
Qed.

Lemma append_empty_r (s : string) : s +:+ "" = s.
Proof.
  induction s as [|c s IH]; [done|].
  change (String c (s +:+ "") = String c s). by f_equal.
Qed.

(** C6. [key_builder] is a function of the operation and its arguments:
    equal inputs give equal keys. Under one operation, distinct identifiers
    give distinct keys, whatever the identifiers are; and over names and
    identifiers in which the separator does not occur (operation names,
    hexadecimal identifiers), equal keys come from equal operations and
    equal argument lists only. *)
Theorem key_builder_injective op op' args args' :
  (∀ a b, key_builder op [a] = key_builder op [b] ↔ a = b) ∧
  (forallb sep_free (op :: args) = true →
   forallb sep_free (op' :: args') = true →
   key_builder op args = key_builder op' args' ↔ op = op' ∧ args = args').
Proof.
  split.
  - intros a b. split; [|by intros ->].
    unfold key_builder. simpl. intros [= H]%append_inj_l.
    by rewrite !append_empty_r in H.
  - simpl. intros [Ho Ha]%andb_prop [Ho' Ha']%andb_prop. split.
    + unfold key_builder. intros Heq.
      apply append_sep_free_inj in Heq as [-> Heq];
        auto using join_args_shape.
      split; [done|]. by apply join_args_inj.
    + by intros [-> ->].
Qed.

(** ** The cached reads, case by case *)

Lemma class_key_not_list_key cid : class_key cid ≠ list_key.
Proof. cbv. discriminate. Qed.

Lemma read_class_hit w cid :
  let v := redis_get (class_key cid) (now w) (cache w) in
  truthy v = true →
  read_class cid w =
    (match v with
     | PyClass r => Ret (class_resp r)
     | PyList _ => Raise AttributeError
     | PyNone => Raise ClassNotFoundException
     end,
     mkWorld (db w) (sess w) (cache w) (now w) (faults w)
       (trace w ++ [EvCacheGet (class_key cid); EvLog DEBUG;
                    EvCacheGet (class_key cid)])).
Proof.
  intros v Hv. subst v. unfold class_key in *. destruct w as [d s c t f tr].
  cbv beta iota delta [cache now] in Hv. run_handler. rewrite Hv.
  destruct (redis_get _ t c); try discriminate; by rewrite <- !app_assoc.
Qed.

Lemma read_class_miss_fault w cid f :
  truthy (redis_get (class_key cid) (now w) (cache w)) = false →
  faults w = true :: f →
  read_class cid w =
    (Raise DBAPIError,
     mkWorld (db w) None (cache w) (now w) f
       (trace w ++ [EvCacheGet (class_key cid); EvScopeEnter;
                    EvExecute (OnClass (SelectClassWhere cid)) false;
                    EvScopeExit true])).
Proof.
  intros Hv Hf. unfold class_key in *. destruct w as [d s c t f' tr].
  cbv beta iota delta [cache now faults] in Hv, Hf. subst f'.
  run_handler. rewrite Hv. by rewrite <- !app_assoc.
Qed.

Lemma read_class_miss_ok w cid :
  truthy (redis_get (class_key cid) (now w) (cache w)) = false →
  calm 1 (faults w) = true →
  let rows := rows_of_class cid (db w) in
  read_class cid w =
    (match head rows with
     | Some r => Ret (class_resp r)
     | None => Raise ClassNotFoundException
     end,
     mkWorld (db w) None
       (redis_set (class_key cid) (py_scalar rows) 60 (now w) (cache w))
       (now w) (drop 1 (faults w))
       (trace w ++ [EvCacheGet (class_key cid); EvScopeEnter;
                    EvExecute (OnClass (SelectClassWhere cid)) true;
                    EvScopeExit false;
                    EvCacheSet (class_key cid) (py_scalar rows) 60] ++
                   match head rows with
                   | Some _ => []
                   | None => [EvRaise ClassNotFoundException]
                   end)).
Proof.
  intros Hv Hf rows. subst rows. unfold class_key, rows_of_class in *.
  destruct w as [[cls nts seq] s c t [|[] f] tr]; try discriminate;
    cbv beta iota delta [cache now db classes] in Hv |- *;
    run_handler; rewrite Hv;
    destruct (head (filter _ cls)); by rewrite <- !app_assoc.
Qed.

Lemma read_class_list_hit w :
  redis_exists list_key (now w) (cache w) = true →
  let v := redis_get list_key (now w) (cache w) in
  read_class_list w =
    (match v with
     | PyList l => Ret (class_resp <$> l)
     | PyClass _ => Raise TypeError
     | PyNone => Raise ClassNotFoundException
     end,
     mkWorld (db w) (sess w) (cache w) (now w) (faults w)
       (trace w ++ [EvCacheExists list_key; EvCacheGet list_key;
                    EvLog DEBUG] ++
                   match v with
                   | PyNone => [EvRaise ClassNotFoundException]
                   | _ => []
                   end)).
Proof.
  intros Hv v. subst v. unfold list_key in *. destruct w as [d s c t f tr].
  cbv beta iota delta [cache now] in Hv |- *. run_handler. rewrite Hv.
  destruct (redis_get _ t c); by rewrite <- !app_assoc.
Qed.

Lemma read_class_list_miss_fault w f :
  redis_exists list_key (now w) (cache w) = false →
  faults w = true :: f →
  read_class_list w =
    (Raise DBAPIError,
     mkWorld (db w) None (cache w) (now w) f
       (trace w ++ [EvCacheExists list_key; EvLog DEBUG; EvScopeEnter;
                    EvExecute (OnClass SelectClasses) false;
                    EvScopeExit true])).
Proof.
  intros Hv Hf. unfold list_key in *. destruct w as [d s c t f' tr].
  cbv beta iota delta [cache now faults] in Hv, Hf. subst f'.
  run_handler. rewrite Hv. by rewrite <- !app_assoc.
Qed.

Lemma read_class_list_miss_ok w :
  redis_exists list_key (now w) (cache w) = false →
  calm 1 (faults w) = true →
  let rows := classes (db w) in
  read_class_list w =
    (Ret (class_resp <$> rows),
     mkWorld (db w) None
       (redis_set list_key (PyList rows) 60 (now w) (cache w))
       (now w) (drop 1 (faults w))
       (trace w ++ [EvCacheExists list_key; EvLog DEBUG; EvScopeEnter;
                    EvExecute (OnClass SelectClasses) true;
                    EvCacheSet list_key (PyList rows) 60;
                    EvLog DEBUG; EvScopeExit false])).
Proof.
  intros Hv Hf rows. subst rows. unfold list_key in *.
  destruct w as [[cls nts seq] s c t [|[] f] tr]; try discriminate;
    cbv beta iota delta [cache now db classes] in Hv |- *;
    run_handler; rewrite Hv; by rewrite <- !app_assoc.
Qed.

Lemma fault_or_calm fs : (∃ f, fs = true :: f) ∨ calm 1 fs = true.
Proof. destruct fs as [|[] f]; eauto. Qed.

(** One call of a cached read sends at most one statement to the store. *)
Lemma read_class_queries w cid :
  ∃ evs, trace (read_class cid w).2 = trace w ++ evs ∧
         (db_queries evs ≤ 1)%nat.
Proof.
  destruct (hits_class cid w) eqn:Hv.
  - rewrite read_class_hit by done. eexists. split; [done|]. vm_compute; lia.
  - destruct (fault_or_calm (faults w)) as [[f Hf]|Hf].
    + rewrite (read_class_miss_fault _ _ f) by done.
      eexists. split; [done|]. vm_compute; lia.
    + rewrite read_class_miss_ok by done. eexists. split; [done|].
      destruct (head _); vm_compute; lia.
Qed.

Lemma read_class_list_queries w :
  ∃ evs, trace (read_class_list w).2 = trace w ++ evs ∧
         (db_queries evs ≤ 1)%nat.
Proof.
  destruct (hits_list w) eqn:Hv.
  - rewrite read_class_list_hit by done. eexists. split; [done|].
    destruct (redis_get _ _ _); vm_compute; lia.
  - destruct (fault_or_calm (faults w)) as [[f Hf]|Hf].
    + rewrite (read_class_list_miss_fault _ f) by done.
      eexists. split; [done|]. vm_compute; lia.
    + rewrite read_class_list_miss_ok by done. eexists. split; [done|].
      vm_compute; lia.
Qed.

(** ** Reading twice *)

Lemma db_queries_app evs evs' :
  db_queries (evs ++ evs') = (db_queries evs + db_queries evs')%nat.
Proof. unfold db_queries. by rewrite filter_app, length_app. Qed.

(** An entry with time left is what [get] returns and what [exists] sees. *)
Lemma redis_get_within key w d :
  0 ≤ d < ttl_left key w →
  ∃ e, cache w !! key = Some e ∧
       redis_get key (now w + d) (cache w) = value e ∧
       redis_get key (now w) (cache w) = value e ∧
       redis_exists key (now w + d) (cache w) = true.
Proof.
  unfold ttl_left, redis_get, redis_exists, live. intros Hd.
  destruct (cache w !! key) as [e|]; [|lia]. exists e.
  rewrite !bool_decide_eq_true_2 by lia. done.
Qed.

(** Counterexample to C5 as stated: on a store without the class, two
    [read_class] calls one second apart send two statements, and the second
    call opens a session of its own. *)
Lemma repeated_missing_read_queries_twice :
  let w1 := (read_class "c0ffee" fresh_world).2 in
  let w2 := (read_class "c0ffee" (elapse 1 w1)).2 in
  ¬ (db_queries (events_since fresh_world w2) ≤ 1)%nat ∧
  EvScopeEnter ∈ events_since w1 w2.
Proof.
  split.
  - vm_compute. lia.
  - vm_compute. apply list_elem_of_In. vm_compute. tauto.
Qed.

(** C1 on [read_class]. On a store without the class the handler goes to
    the store, gets no row, and still calls [redis_cache.set] with [None]:
    the cache gains an entry. The next read finds a [None] there, which is
    false, and goes to the store again. *)
Theorem read_class_caches_null :
  let out := read_class "c0ffee" fresh_world in
  out.1 = Raise ClassNotFoundException ∧
  EvCacheSet (class_key "c0ffee") PyNone 60 ∈ trace out.2 ∧
  cache out.2 !! class_key "c0ffee" = Some (mkEntry PyNone 60) ∧
  cache out.2 ≠ cache fresh_world ∧
  db_queries (events_since out.2 (read_class "c0ffee" out.2).2) = 1%nat.
Proof.
  assert (Hout : read_class "c0ffee" fresh_world =
    (Raise ClassNotFoundException,
     mkWorld (mkDb [] [] 1) None
       (redis_set (class_key "c0ffee") PyNone 60 0 ∅) 0 []
       [EvCacheGet (class_key "c0ffee"); EvScopeEnter;
        EvExecute (OnClass (SelectClassWhere "c0ffee")) true;
        EvScopeExit false;
        EvCacheSet (class_key "c0ffee") PyNone 60;
        EvRaise ClassNotFoundException])).
  { by rewrite read_class_miss_ok. }
  rewrite Hout. simpl. split_and!.
  - done.
  - set_solver.
  - apply lookup_insert_eq.
  - intros Heq. apply (f_equal (λ c, c !! class_key "c0ffee")) in Heq.
    unfold redis_set in Heq. by rewrite lookup_insert_eq, lookup_empty in Heq.
  - rewrite read_class_miss_ok.
    + by vm_compute.
    + simpl. unfold redis_get, redis_set. by rewrite lookup_insert_eq.
    + done.
Qed.

(** ** The slot of the class list *)

(** Only the two cached reads write to the cache. *)
Lemma writes_keep_cache w r :
  match r with
  | ReadClass _ | ReadClassList => True
  | _ => cache (serve r w) = cache w
  end.
Proof.
  destruct r; try done; simpl;
    split_faults w; run_handler;
    repeat (case_bool_decide || case_match); by simplify_eq/=.
Qed.

Lemma list_slot_ok_set_other k v ttl t (c : gmap string entry) :
  k ≠ list_key → list_slot_ok c → list_slot_ok (redis_set k v ttl t c).
Proof.
  intros Hk Hc e. unfold redis_set. rewrite lookup_insert_ne by done. apply Hc.
Qed.

Lemma list_slot_ok_set_list l ttl t (c : gmap string entry) :
  list_slot_ok (redis_set list_key (PyList l) ttl t c).
Proof.
  intros e. unfold redis_set. rewrite lookup_insert_eq. intros [= <-]. by exists l.
Qed.

Lemma serve_list_slot_ok r w :
  list_slot_ok (cache w) → list_slot_ok (cache (serve r w)).
Proof.
  intros Hc. pose proof (writes_keep_cache w r) as Hw.
  destruct r; try (by rewrite Hw); clear Hw; simpl.
  - destruct (hits_list w) eqn:Hv.
    + by rewrite read_class_list_hit.
    + destruct (fault_or_calm (faults w)) as [[f Hf]|Hf].
      * by rewrite (read_class_list_miss_fault _ f).
      * rewrite read_class_list_miss_ok by done. apply list_slot_ok_set_list.
  - destruct (hits_class class_id w) eqn:Hv.
    + by rewrite read_class_hit.
    + destruct (fault_or_calm (faults w)) as [[f Hf]|Hf].
      * by rewrite (read_class_miss_fault _ _ f).
      * rewrite read_class_miss_ok by done.
        apply list_slot_ok_set_other; [apply class_key_not_list_key|done].
Qed.

(** ** The primary key of the notices *)

Lemma ids_ok_insert nts seq cid msg t t' :
  ids_ok nts seq →
  ids_ok (nts ++ [ClassNotice.mk seq cid msg t t']) (seq + 1).
Proof.
  intros [Hnd Hlt]. split.
  - rewrite fmap_app. apply NoDup_app. split_and!; [done| |apply NoDup_singleton].
    intros x Hx [->|[]%elem_of_nil]%elem_of_cons.
    apply list_elem_of_fmap in Hx as (r & Hr & Hin).
    specialize (Hlt r Hin). simpl in Hr. lia.
  - intros r [Hin|[->|[]%elem_of_nil]%elem_of_cons]%elem_of_app.
    + specialize (Hlt r Hin). lia.
    + simpl. lia.
Qed.

Lemma ids_ok_update nts seq nid cid msg t :
  ids_ok nts seq →
  ids_ok ((λ r, if decide (notice_matches nid cid r)
                then set_message msg t r else r) <$> nts) seq.
Proof.
  intros [Hnd Hlt]. split.
  - rewrite <- list_fmap_compose.
    erewrite list_fmap_ext; [exact Hnd|]. intros i r _. simpl. by case_decide.
  - intros r (r0 & -> & Hin)%list_elem_of_fmap.
    specialize (Hlt r0 Hin). by case_decide.
Qed.

Lemma ids_ok_delete nts seq (P : ClassNotice.t → Prop)
    `{!∀ r, Decision (P r)} :
  ids_ok nts seq → ids_ok (filter P nts) seq.
Proof.
  intros [Hnd Hlt]. split.
  - eapply sublist_NoDup; [done|]. apply (fmap_sublist _), sublist_filter.
  - intros r [_ Hin]%list_elem_of_filter. by apply Hlt.
Qed.

(** Every request keeps the primary key of the notices, so that it holds
    in all worlds that follow one in which it holds. *)
Lemma serve_notice_ids_ok r w :
  notice_ids_ok (db w) → notice_ids_ok (db (serve r w)).
Proof.
  intros Hok. destruct r; simpl;
    split_faults w; run_handler;
    repeat (case_bool_decide || case_match); simplify_eq/=;
    unfold notice_ids_ok in *; simpl in *;
    auto using ids_ok_insert, ids_ok_update, ids_ok_delete.
Qed.

(** ** Examples

    Each theorem with a premise, applied to one of the sample worlds. *)

(** C2 during an outage: the first round trip raises. *)
Lemma write_failure_rolls_back_witness :
  calm 2 (faults outage) = false ∧
  failed_write ClassCreationFailed outage
    (create_class "beef" (ClassReq.mk "Algebra II" "teacher-7") outage) ∧
  failed_write ClassNoticeCreationFailed outage
    (create_class_notice "c0ffee" (ClassNoticeReq.mk "moved") outage) ∧
  failed_write ClassNoticeUpdateFailed outage
    (update_class_notice "c0ffee" 1 (ClassNoticeReq.mk "moved") outage) ∧
  failed_write ClassNoticeDeleteFailed outage
    (delete_class_notice "c0ffee" 1 outage).
Proof.
  split; [reflexivity|].
  apply (write_failure_rolls_back outage "beef"
           (ClassReq.mk "Algebra II" "teacher-7") "c0ffee" 1
           (ClassNoticeReq.mk "moved")).
  reflexivity.
Defined.

Lemma school_has_no_notice_7 r :
  r ∈ notices (db school) → ¬ notice_matches 7 "c0ffee" r.
Proof.
  intros Hr [Hid _]. simpl in Hr.
  apply elem_of_cons in Hr as [->|Hr]; [discriminate Hid|].
  apply elem_of_cons in Hr as [->|Hr]; [discriminate Hid|].
  by apply elem_of_nil in Hr.
Defined.

(** C3 on notice 7, which the school does not have. *)
Lemma update_missing_notice_witness :
  calm 2 (faults school) = true ∧
  (∀ r, r ∈ notices (db school) → ¬ notice_matches 7 "c0ffee" r) ∧
  update_class_notice "c0ffee" 7 (ClassNoticeReq.mk "moved") school =
    (Raise ClassNoticeNotFound,
     mkWorld (db school) None ∅ 10 []
       [EvScopeEnter;
        EvExecute (OnNotice (UpdateNotice 7 "c0ffee" "moved")) true;
        EvCommit true;
        EvRaise ClassNoticeNotFound;
        EvScopeExit true]).
Proof.
  split; [reflexivity|]. split; [exact school_has_no_notice_7|].
  apply (update_missing_notice_not_found school "c0ffee" 7
           (ClassNoticeReq.mk "moved")).
  - reflexivity.
  - exact school_has_no_notice_7.
Defined.

Lemma school_ids_distinct : NoDup (ClassNotice.id <$> notices (db school)).
Proof.
  simpl. apply NoDup_cons. split; [|apply NoDup_singleton].
  intros H%list_elem_of_singleton. discriminate H.
Defined.

(** C8 on the two notices of the school: the later one comes first. *)
Lemma notice_list_newest_first_witness :
  (read_class_notice_list "c0ffee" school).1
    = Ret [notice_resp exam; notice_resp hello] ∧
  Sorted newer_first_resp [notice_resp exam; notice_resp hello] ∧
  [notice_resp exam; notice_resp hello] ≡ₚ
    notice_resp <$> filter (λ r, ClassNotice.class_id r = "c0ffee")
                      (notices (db school)).
Proof.
  split; [reflexivity|].
  apply (notice_list_newest_first school "c0ffee").
  reflexivity.
Defined.

(** C10 on a store without notices. *)
Lemma empty_notice_list_witness :
  calm 1 (faults fresh_world) = true ∧
  (∀ r, r ∈ notices (db fresh_world) → ClassNotice.class_id r ≠ "c0ffee") ∧
  read_class_notice_list "c0ffee" fresh_world =
    (Raise ClassNoticeNotFound,
     mkWorld (db fresh_world) None ∅ 0 []
       [EvScopeEnter;
        EvExecute (OnNotice (SelectNoticesWhere "c0ffee")) true;
        EvScopeExit false;
        EvRaise ClassNoticeNotFound]).
Proof.
  assert (Hno : ∀ r, r ∈ notices (db fresh_world) →
                     ClassNotice.class_id r ≠ "c0ffee").
  { intros r Hr. by apply elem_of_nil in Hr. }
  split; [reflexivity|]. split; [exact Hno|].
  apply (empty_notice_list_not_found fresh_world "c0ffee").
  - reflexivity.
  - exact Hno.
Defined.

(** C7 with a time-to-live of 60: present after 59, absent after 60. *)
Lemma cache_round_trip_witness :
  let w1 := (redis_cache.set "k" (PyClass algebra) 60 school).2 in
  (redis_cache.get "k" (elapse 59 w1)).1 = Ret (PyClass algebra) ∧
  (redis_cache.get "k" (elapse 60 w1)).1 = Ret PyNone ∧
  (redis_cache.exists_ "k" (elapse 60 w1)).1 = Ret false.
Proof.
  destruct (cache_round_trip school "k" (PyClass algebra) 60 59) as (H59 & _ & _).
  destruct (cache_round_trip school "k" (PyClass algebra) 60 60) as (_ & H60 & _).
  split; [apply H59; lia|apply H60; lia].
Defined.

(** C6 on the keys of the router. *)
Lemma key_builder_injective_witness :
  forallb sep_free ["read_class"; "list"] = true ∧
  forallb sep_free ["read_class_list"] = true ∧
  key_builder "read_class" ["c0ffee"] = key_builder "read_class" ["c0ffee"] ∧
  key_builder "read_class" ["c0ffee"] ≠ key_builder "read_class" ["beef"] ∧
  key_builder "read_class" ["list"] ≠ key_builder "read_class_list" [].
Proof.
  destruct (key_builder_injective "read_class" "read_class_list" ["list"] [])
    as [Hone Hall].
  split_and!; [reflexivity|reflexivity| | |].
  - by apply Hone.
  - intros H%Hone. discriminate H.
  - intros H. apply Hall in H as [_ H]; reflexivity || discriminate H.
Defined.

(** ** Writes that go through *)

Lemma create_class_ok w uuid body :
  calm 2 (faults w) = true →
  create_class uuid body w =
    (Ret (class_resp (new_class uuid body (now w))),
     mkWorld (with_class (new_class uuid body (now w)) (db w)) None (cache w)
       (now w) (drop 2 (faults w))
       (trace w ++
        [EvScopeEnter;
         EvExecute (OnClass (InsertClass uuid (ClassReq.className body)
                                         (ClassReq.teacherId body))) true;
         EvCommit true;
         EvScopeExit false])).
Proof.
  intros Hf. split_faults w; run_handler; simpl; by rewrite <- !app_assoc.
Qed.

Lemma create_class_notice_ok w cid body :
  calm 2 (faults w) = true →
  create_class_notice cid body w =
    (Ret (notice_resp (new_notice cid body (db w) (now w))),
     mkWorld (with_notice (new_notice cid body (db w) (now w)) (db w)) None
       (cache w) (now w) (drop 2 (faults w))
       (trace w ++
        [EvScopeEnter;
         EvExecute (OnNotice (InsertNotice cid (ClassNoticeReq.message body)))
                   true;
         EvCommit true;
         EvScopeExit false])).
Proof.
  intros Hf. split_faults w; run_handler; simpl; by rewrite <- !app_assoc.
Qed.

(** ** A class that has just been created *)

Lemma rows_of_new_class uuid r d :
  Class_.class_id r = uuid →
  (∀ r', r' ∈ classes d → Class_.class_id r' ≠ uuid) →
  rows_of_class uuid (with_class r d) = [r].
Proof.
  intros Hr Hno. unfold rows_of_class, with_class. simpl.
  rewrite filter_app, (filter_none _ _ Hno). simpl.
  by rewrite filter_cons_True.
Qed.

(** The read that follows a creation goes to the store, whatever the cache
    holds under the key as long as it is not a true value. *)
Lemma read_after_create w uuid body :
  calm 3 (faults w) = true →
  (∀ r, r ∈ classes (db w) → Class_.class_id r ≠ uuid) →
  hits_class uuid w = false →
  ∃ w1, create_class uuid body w
          = (Ret (class_resp (new_class uuid body (now w))), w1) ∧
        (read_class uuid w1).1
          = Ret (class_resp (new_class uuid body (now w))) ∧
        (db_queries (events_since w1 (read_class uuid w1).2) = 1)%nat.
Proof.
  intros Hf Hno Hv. apply (calm_drop 2 1) in Hf as [Hf2 Hf1].
  eexists. split; [by apply create_class_ok|].
  rewrite read_class_miss_ok by done. simpl.
  rewrite rows_of_new_class by done. simpl. split; [done|].
  erewrite events_since_app; [|done]. by vm_compute.
Qed.

(** X1. [create_class] answers with the identifier it drew, the name and
    the teacher of the request and the time of the store, and a
    [read_class] of that identifier right after answers the same. *)
Theorem create_class_then_read w uuid body :
  calm 3 (faults w) = true →
  (∀ r, r ∈ classes (db w) → Class_.class_id r ≠ uuid) →
  hits_class uuid w = false →
  ∃ w1,
    create_class uuid body w =
      (Ret (ClassResp.mk uuid (ClassReq.className body)
                         (ClassReq.teacherId body) (now w)), w1) ∧
    classes (db w1) = classes (db w) ++ [new_class uuid body (now w)] ∧
    notices (db w1) = notices (db w) ∧
    (read_class uuid w1).1 =
      Ret (ClassResp.mk uuid (ClassReq.className body)
                        (ClassReq.teacherId body) (now w)).
Proof.
  intros Hf Hno Hv.
  destruct (read_after_create w uuid body Hf Hno Hv) as (w1 & Hc & Hr & _).
  exists w1. split_and!; [done| | |done].
  - apply (calm_drop 2 1) in Hf as [Hf2 _].
    rewrite create_class_ok in Hc by done. by injection Hc as <-.
  - apply (calm_drop 2 1) in Hf as [Hf2 _].
    rewrite create_class_ok in Hc by done. by injection Hc as <-.
Qed.

(** X2. A [read_class] that found no class does not hide the class from
    later reads: once a class with that identifier is created, the next
    [read_class] finds it, although the first read left [None] in the
    cache. *)
Theorem not_found_does_not_stick w uuid body :
  calm 4 (faults w) = true →
  (∀ r, r ∈ classes (db w) → Class_.class_id r ≠ uuid) →
  hits_class uuid w = false →
  ∃ w1 resp w2,
    read_class uuid w = (Raise ClassNotFoundException, w1) ∧
    redis_exists (class_key uuid) (now w1) (cache w1) = true ∧
    create_class uuid body w1 = (Ret resp, w2) ∧
    (read_class uuid w2).1 = Ret resp.
Proof.
  intros Hf Hno Hv. apply (calm_drop 1 3) in Hf as [Hf1 Hf3].
  pose proof (read_class_miss_ok w uuid Hv Hf1) as H1. cbv zeta in H1.
  unfold rows_of_class in H1. rewrite (filter_none _ _ Hno) in H1.
  cbn [head py_scalar scalar app] in H1.
  match type of H1 with _ = (_, ?w') =>
    destruct (read_after_create w' uuid body) as (w2 & Hc & Hr & _) end;
    [done|done| |].
  { unfold hits_class, redis_get, redis_set. simpl.
    rewrite lookup_insert_eq. simpl. by destruct (live _ _). }
  eexists _, _, w2. split_and!; [exact H1| |exact Hc|exact Hr].
  unfold redis_exists, redis_set, live. simpl. rewrite lookup_insert_eq. simpl.
  apply bool_decide_eq_true_2. lia.
Qed.

(** ** The class list after a creation *)


(** ** Notices: create, list, update, delete *)

Lemma read_class_notice_list_found w cid :
  calm 1 (faults w) = true →
  notices_of_class cid (db w) ≠ [] →
  read_class_notice_list cid w =
    (Ret (notice_resp <$> notices_of_class cid (db w)),
     mkWorld (db w) None (cache w) (now w) (drop 1 (faults w))
       (trace w ++ [EvScopeEnter;
                    EvExecute (OnNotice (SelectNoticesWhere cid)) true;
                    EvScopeExit false])).
Proof.
  intros Hf Hne. unfold notices_of_class in *.
  destruct w as [[cls nts seq] s c t [|[] f] tr]; try discriminate;
    cbv beta iota delta [db notices] in Hne; run_handler;
    rewrite bool_decide_eq_false_2 by done; by rewrite <- !app_assoc.
Qed.

Lemma notices_of_class_perm cid d :
  notices_of_class cid d
    ≡ₚ filter (λ r, ClassNotice.class_id r = cid) (notices d).
Proof. apply merge_sort_Permutation. Qed.

(** X4. [create_class_notice] gives the notice an identifier that no
    notice in the store has, and the [read_class_notice_list] of the class
    that follows holds the new notice together with the notices the class
    had. *)
Theorem create_notice_then_list w cid body :
  calm 3 (faults w) = true →
  notice_ids_ok (db w) →
  let new := new_notice cid body (db w) (now w) in
  ∃ w1 l,
    create_class_notice cid body w = (Ret (notice_resp new), w1) ∧
    ClassNoticeResp.classId (notice_resp new) = cid ∧
    ClassNoticeResp.message (notice_resp new) = ClassNoticeReq.message body ∧
    (∀ r, r ∈ notices (db w) →
          ClassNotice.id r ≠ ClassNoticeResp.id (notice_resp new)) ∧
    (read_class_notice_list cid w1).1 = Ret l ∧
    l ≡ₚ notice_resp new ::
           (notice_resp <$>
              filter (λ r, ClassNotice.class_id r = cid) (notices (db w))).
Proof.
  intros Hf [_ Hlt] new. subst new.
  apply (calm_drop 2 1) in Hf as [Hf2 Hf1].
  assert (Hperm :
    notices_of_class cid
      (with_notice (new_notice cid body (db w) (now w)) (db w))
    ≡ₚ new_notice cid body (db w) (now w) ::
         filter (λ r, ClassNotice.class_id r = cid) (notices (db w))).
  { rewrite notices_of_class_perm. simpl. rewrite filter_app.
    rewrite (filter_cons_True _ (new_notice cid body (db w) (now w))) by done.
    simpl. by rewrite Permutation_app_comm. }
  eexists _, _. split; [by apply create_class_notice_ok|].
  split_and!; [done|done| | |].
  - intros r Hr. specialize (Hlt r Hr). simpl. lia.
  - rewrite read_class_notice_list_found; [done|done|]. simpl.
    intros Hnil. rewrite Hnil in Hperm.
    by apply Permutation_nil_cons in Hperm.
  - simpl. by rewrite Hperm.
Qed.

Lemma update_class_notice_found w cid nid body r :
  calm 2 (faults w) = true →
  head (filter (notice_matches nid cid) (notices (db w))) = Some r →
  update_class_notice cid nid body w =
    (Ret (notice_resp (set_message (ClassNoticeReq.message body) (now w) r)),
     mkWorld (update_rows nid cid (ClassNoticeReq.message body) (now w) (db w))
       None (cache w) (now w) (drop 2 (faults w))
       (trace w ++
        [EvScopeEnter;
         EvExecute
           (OnNotice (UpdateNotice nid cid (ClassNoticeReq.message body))) true;
         EvCommit true;
         EvScopeExit false])).
Proof.
  intros Hf Hr.
  split_faults w; run_handler;
    destruct (filter (notice_matches nid cid) nts) as [|r0 rest];
    try discriminate; injection Hr as ->; simpl;
    by rewrite <- !app_assoc.
Qed.

(** X5. [update_class_notice] on a notice that exists under the class
    answers with that notice carrying the new message, its identifier, class
    and creation time being the old ones; in the store the identifiers of
    the notices and every notice other than this one are what they were, and
    the classes are untouched. *)
Theorem update_changes_only_the_message w cid nid body r :
  calm 2 (faults w) = true →
  NoDup (ClassNotice.id <$> notices (db w)) →
  r ∈ notices (db w) →
  notice_matches nid cid r →
  ∃ resp w1,
    update_class_notice cid nid body w = (Ret resp, w1) ∧
    ClassNoticeResp.id resp = nid ∧
    ClassNoticeResp.classId resp = cid ∧
    ClassNoticeResp.message resp = ClassNoticeReq.message body ∧
    ClassNoticeResp.createdAt resp = ClassNotice.created_at r ∧
    classes (db w1) = classes (db w) ∧
    ClassNotice.id <$> notices (db w1) = ClassNotice.id <$> notices (db w) ∧
    (∀ r', r' ∈ notices (db w) → ¬ notice_matches nid cid r' →
           r' ∈ notices (db w1)).
Proof.
  intros Hf Hnd Hin Hm.
  eexists _, _. split.
  { apply update_class_notice_found; [done|]. by apply head_filter_unique. }
  destruct Hm as [Hid Hcid]. simpl. split_and!; try done.
  - rewrite <- list_fmap_compose. apply list_fmap_ext.
    intros i r' _. simpl. by case_decide.
  - intros r' Hr' Hno. apply list_elem_of_fmap. exists r'.
    by rewrite decide_False.
Qed.

(** X6. When the store accepts the statement and the commit,
    [delete_class_notice] removes the notices that have the identifier under
    the class and nothing else, whether it answers with the notice or with
    Not Found: a notice of another class with the same identifier stays, and
    so do the classes. *)
Theorem delete_removes_only_matching w cid nid :
  calm 2 (faults w) = true →
  let w1 := (delete_class_notice cid nid w).2 in
  classes (db w1) = classes (db w) ∧
  (∀ r, r ∈ notices (db w1) ↔
        r ∈ notices (db w) ∧ ¬ notice_matches nid cid r) ∧
  (∀ r, r ∈ notices (db w) → ClassNotice.class_id r ≠ cid →
        r ∈ notices (db w1)).
Proof.
  intros Hf w1.
  assert (Hdb : db w1 = delete_rows nid cid (db w)).
  { subst w1.
    destruct (head (filter (notice_matches nid cid) (notices (db w))))
      as [r|] eqn:Hr.
    - by rewrite (delete_class_notice_found w cid nid r).
    - rewrite delete_class_notice_missing; [done|done|].
      apply head_None in Hr. intros r Hin Hm.
      assert (Hin' : r ∈ filter (notice_matches nid cid) (notices (db w)))
        by by apply list_elem_of_filter.
      rewrite Hr in Hin'. by apply elem_of_nil in Hin'. }
  rewrite Hdb. simpl. split_and!; [done| |].
  - intros r. rewrite list_elem_of_filter. tauto.
  - intros r Hin Hne. apply list_elem_of_filter. split; [|done].
    intros [_ Hc]. done.
Qed.

(** ** What the handlers leave alone *)

(** X7. The four writes and [read_class_notice_list] never consult the
    cache and never write to it, whether they succeed, find nothing or
    fail. *)
Theorem uncached_requests_leave_cache w r :
  uses_cache r = false →
  cache (serve r w) = cache w ∧
  cache_events (events_since w (serve r w)) = [].
Proof.
  intros Hr. unfold events_since.
  destruct r; try discriminate; simpl; all_paths w;
    rewrite ?drop_app_length; done.
Qed.

(** X8. The three reads never change the committed store, on a hit, on a
    miss, when they find nothing and when the store fails. *)
Theorem reads_leave_store w r :
  is_read r = true → db (serve r w) = db w.
Proof.
  intros Hr. destruct r; try discriminate; simpl; all_paths w; done.
Qed.

(** X9. Every handler of the router, and [session_test], keeps the session
    discipline on all of its paths: what it appends to the trace is well
    scoped, and it leaves no session open. *)
Theorem handlers_well_scoped w r :
  well_scoped false (events_since w (serve r w)) = true ∧
  well_scoped false (events_since w (session_test w).2) = true ∧
  (sess w = None → sess (serve r w) = None) ∧
  sess (session_test w).2 = None.
Proof.
  unfold events_since. split_and!.
  - destruct r; simpl; all_paths w; rewrite ?drop_app_length, ?drop_all; done.
  - destruct w as [d s c t f tr]. unfold session_test. run_handler.
    rewrite <- !app_assoc, drop_app_length. done.
  - destruct r; simpl; all_paths w; done.
  - destruct w as [d s c t f tr]. unfold session_test. by run_handler.
Qed.

(** ** Reads when the store fails *)

Lemma read_class_notice_list_fault w cid f :
  faults w = true :: f →
  read_class_notice_list cid w =
    (Raise DBAPIError,
     mkWorld (db w) None (cache w) (now w) f
       (trace w ++ [EvScopeEnter;
                    EvExecute (OnNotice (SelectNoticesWhere cid)) false;
                    EvScopeExit true])).
Proof.
  intros Hf. destruct w as [d s c t f' tr].
  cbv beta iota delta [faults] in Hf. subst f'.
  run_handler. by rewrite <- !app_assoc.
Qed.

(** X10. The reads have no handler for the exceptions of the store: when
    the store raises on the query of [read_class], [read_class_list] (both
    on a cache miss) or [read_class_notice_list], the caller gets that
    exception and not an error of the service; nothing is rolled back by the
    handler, nothing is cached, and the session is closed. *)
Theorem reads_surface_store_errors w cid f :
  faults w = true :: f →
  (hits_class cid w = false → raw_failure w (read_class cid w)) ∧
  (hits_list w = false → raw_failure w (read_class_list w)) ∧
  raw_failure w (read_class_notice_list cid w).
Proof.
  intros Hf. split_and!; [intros Hv|intros Hv|]; unfold raw_failure.
  - rewrite (read_class_miss_fault w cid f Hv Hf). cbn [fst snd].
    erewrite events_since_app by done. split_and!; try done; not_in_trace.
  - rewrite (read_class_list_miss_fault w f Hv Hf). cbn [fst snd].
    erewrite events_since_app by done. split_and!; try done; not_in_trace.
  - rewrite (read_class_notice_list_fault w cid f Hf). cbn [fst snd].
    erewrite events_since_app by done. split_and!; try done; not_in_trace.
Qed.

(** ** Invariants over any sequence of requests *)

Lemma serve_classes_prefix r w :
  classes (db w) `prefix_of` classes (db (serve r w)).
Proof.
  destruct r; simpl; all_paths w;
    first [done | by apply prefix_app_r].
Qed.

(** X11. Classes are only ever added: whatever requests are served, the
    classes the store had are still there, unchanged and in the same
    places, with the new ones after them. *)
Theorem classes_only_grow rs w :
  classes (db w) `prefix_of` classes (db (serve_all rs w)).
Proof.
  unfold serve_all. revert w. induction rs as [|r rs IH]; intros w; [done|].
  simpl. etrans; [apply (serve_classes_prefix r)|apply IH].
Qed.

(** X12. The identifiers of the notices stay pairwise distinct, and below
    the next value of the sequence, whatever requests are served. *)
Theorem notice_ids_stay_distinct rs w :
  notice_ids_ok (db w) → notice_ids_ok (db (serve_all rs w)).
Proof.
  unfold serve_all. revert w. induction rs as [|r rs IH]; intros w Hok; [done|].
  simpl. by apply IH, serve_notice_ids_ok.
Qed.

(** ** Reads from the cache while the store is down *)

(** X13. A cached read that finds its value in the cache does not depend on
    the store: it makes no round trip, so it answers the same whatever the
    fault schedule is, and leaves the schedule as it was. *)
Theorem cache_hit_needs_no_store w cid fs :
  (hits_class cid w = true →
     (read_class cid (set_faults fs w)).1 = (read_class cid w).1 ∧
     (read_class cid w).1 ≠ Raise DBAPIError ∧
     faults (read_class cid w).2 = faults w ∧
     db_events (events_since w (read_class cid w).2) = []) ∧
  (hits_list w = true →
     (read_class_list (set_faults fs w)).1 = (read_class_list w).1 ∧
     (read_class_list w).1 ≠ Raise DBAPIError ∧
     faults (read_class_list w).2 = faults w ∧
     db_events (events_since w (read_class_list w).2) = []).
Proof.
  split; intros Hv.
  - rewrite (read_class_hit w cid Hv), (read_class_hit (set_faults fs w) cid Hv).
    cbn [fst snd]. erewrite events_since_app by done.
    split_and!; [done| |done|by vm_compute].
    simpl. by destruct (redis_get _ _ _).
  - rewrite (read_class_list_hit w Hv), (read_class_list_hit (set_faults fs w) Hv).
    cbn [fst snd]. erewrite events_since_app by done.
    split_and!; [done| |done|].
    + simpl. by destruct (redis_get _ _ _).
    + simpl. by destruct (redis_get _ _ _).
Qed.

(** ** An updated notice in the list of its class *)

Lemma same_id_same_row (l : list ClassNotice.t) x y :
  NoDup (ClassNotice.id <$> l) → x ∈ l → y ∈ l →
  ClassNotice.id x = ClassNotice.id y → x = y.
Proof.
  induction l as [|z l IH]; intros Hnd Hx Hy Heq; [by apply elem_of_nil in Hx|].
  rewrite fmap_cons in Hnd. apply NoDup_cons in Hnd as [Hz Hnd].
  apply elem_of_cons in Hx as [->|Hx]; apply elem_of_cons in Hy as [->|Hy].
  - done.
  - exfalso. apply Hz. apply list_elem_of_fmap. by exists y.
  - exfalso. apply Hz. apply list_elem_of_fmap. by exists x.
  - by apply IH.
Qed.

(** X14. Notices are read from the store each time: the
    [read_class_notice_list] that follows an [update_class_notice] holds
    the notice as the update answered it, and holds no other notice with
    that identifier. *)
Theorem updated_notice_is_listed w cid nid body r :
  calm 3 (faults w) = true →
  NoDup (ClassNotice.id <$> notices (db w)) →
  r ∈ notices (db w) →
  notice_matches nid cid r →
  ∃ resp w1 l,
    update_class_notice cid nid body w = (Ret resp, w1) ∧
    (read_class_notice_list cid w1).1 = Ret l ∧
    resp ∈ l ∧
    (∀ x, x ∈ l → ClassNoticeResp.id x = nid → x = resp).
Proof.
  intros Hf Hnd Hin Hm. apply (calm_drop 2 1) in Hf as [Hf2 Hf1].
  set (msg := ClassNoticeReq.message body).
  set (upd := λ r0, if decide (notice_matches nid cid r0)
                    then set_message msg (now w) r0 else r0).
  assert (Hnew : set_message msg (now w) r
            ∈ notices_of_class cid (update_rows nid cid msg (now w) (db w))).
  { rewrite notices_of_class_perm. apply list_elem_of_filter.
    split; [by destruct Hm|].
    simpl. apply list_elem_of_fmap. exists r. by rewrite decide_True. }
  eexists _, _, _. split.
  { apply update_class_notice_found; [done|]. by apply head_filter_unique. }
  rewrite read_class_notice_list_found; [|done|].
  2:{ simpl. intros Hnil. fold msg in Hnil. rewrite Hnil in Hnew.
      by apply elem_of_nil in Hnew. }
  simpl. split; [done|]. fold msg. split.
  - apply list_elem_of_fmap. by exists (set_message msg (now w) r).
  - intros x (y & -> & Hy)%list_elem_of_fmap Hid. f_equal.
    rewrite notices_of_class_perm in Hy.
    apply list_elem_of_filter in Hy as [_ Hy]. simpl in Hy.
    apply list_elem_of_fmap in Hy as (y0 & -> & Hy0).
    assert (y0 = r) as ->.
    { apply (same_id_same_row (notices (db w))); try done.
      destruct Hm as [-> _]. simpl in Hid. by case_decide. }
    by rewrite decide_True.
Qed.

(** ** Further examples *)

Lemma school_has_no_beef r :
  r ∈ classes (db school) → Class_.class_id r ≠ "beef".
Proof.
  simpl. intros Hr Hid.
  apply elem_of_cons in Hr as [->|Hr]; [discriminate Hid|].
  by apply elem_of_nil in Hr.
Defined.

Lemma school_ids_ok : notice_ids_ok (db school).
Proof.
  split; [exact school_ids_distinct|]. simpl. intros r Hr.
  apply elem_of_cons in Hr as [->|Hr]; [reflexivity|].
  apply elem_of_cons in Hr as [->|Hr]; [reflexivity|].
  by apply elem_of_nil in Hr.
Defined.

Lemma hello_in_school : hello ∈ notices (db school).
Proof. simpl. apply elem_of_cons. by left. Defined.

Lemma hello_matches : notice_matches 1 "c0ffee" hello.
Proof. split; reflexivity. Defined.

(** X1 on the school: a second class, read back. *)
Lemma create_class_then_read_witness :
  calm 3 (faults school) = true ∧
  hits_class "beef" school = false ∧
  ∃ w1,
    create_class "beef" algebra2 school =
      (Ret (ClassResp.mk "beef" "Algebra II" "teacher-7" 10), w1) ∧
    classes (db w1) = [algebra; new_class "beef" algebra2 10] ∧
    notices (db w1) = [hello; exam] ∧
    (read_class "beef" w1).1 =
      Ret (ClassResp.mk "beef" "Algebra II" "teacher-7" 10).
Proof.
  split; [reflexivity|]. split; [reflexivity|].
  exact (create_class_then_read school "beef" algebra2 eq_refl
           school_has_no_beef eq_refl).
Defined.

(** X2 on the school: Not Found, then the creation, then found. *)
Lemma not_found_does_not_stick_witness :
  calm 4 (faults school) = true ∧
  hits_class "beef" school = false ∧
  ∃ w1 resp w2,
    read_class "beef" school = (Raise ClassNotFoundException, w1) ∧
    redis_exists (class_key "beef") (now w1) (cache w1) = true ∧
    create_class "beef" algebra2 w1 = (Ret resp, w2) ∧
    (read_class "beef" w2).1 = Ret resp.
Proof.
  split; [reflexivity|]. split; [reflexivity|].
  exact (not_found_does_not_stick school "beef" algebra2 eq_refl
           school_has_no_beef eq_refl).
Defined.


(** X4 on the school: a third notice. *)
Lemma create_notice_then_list_witness :
  calm 3 (faults school) = true ∧
  notice_ids_ok (db school) ∧
  ∃ w1 l,
    create_class_notice "c0ffee" moved school =
      (Ret (ClassNoticeResp.mk 3 "c0ffee" "moved" 10 10), w1) ∧
    (read_class_notice_list "c0ffee" w1).1 = Ret l ∧
    l ≡ₚ [ClassNoticeResp.mk 3 "c0ffee" "moved" 10 10;
          notice_resp hello; notice_resp exam].
Proof.
  split; [reflexivity|]. split; [exact school_ids_ok|].
  destruct (create_notice_then_list school "c0ffee" moved eq_refl school_ids_ok)
    as (w1 & l & Hc & _ & _ & _ & Hl & Hp).
  exists w1, l. split; [exact Hc|]. split; [exact Hl|exact Hp].
Defined.

(** X5 on the first notice of the school. *)
Lemma update_changes_only_the_message_witness :
  calm 2 (faults school) = true ∧
  ∃ resp w1,
    update_class_notice "c0ffee" 1 moved school = (Ret resp, w1) ∧
    ClassNoticeResp.id resp = 1 ∧
    ClassNoticeResp.classId resp = "c0ffee" ∧
    ClassNoticeResp.message resp = "moved" ∧
    ClassNoticeResp.createdAt resp = 6 ∧
    classes (db w1) = [algebra] ∧
    ClassNotice.id <$> notices (db w1) = [1; 2] ∧
    (∀ r', r' ∈ notices (db school) → ¬ notice_matches 1 "c0ffee" r' →
           r' ∈ notices (db w1)).
Proof.
  split; [reflexivity|].
  exact (update_changes_only_the_message school "c0ffee" 1 moved hello
           eq_refl school_ids_distinct hello_in_school hello_matches).
Defined.

(** X6 on the school: notice 1 goes, notice 2 stays. *)
Lemma delete_removes_only_matching_witness :
  calm 2 (faults school) = true ∧
  notices (db (delete_class_notice "c0ffee" 1 school).2) = [exam] ∧
  (∀ r, r ∈ notices (db (delete_class_notice "c0ffee" 1 school).2) ↔
        r ∈ notices (db school) ∧ ¬ notice_matches 1 "c0ffee" r).
Proof.
  split; [reflexivity|]. split; [reflexivity|].
  destruct (delete_removes_only_matching school "c0ffee" 1 eq_refl)
    as (_ & Hiff & _).
  exact Hiff.
Defined.

(** X7 on a delete. *)
Lemma uncached_requests_leave_cache_witness :
  uses_cache (DeleteClassNotice "c0ffee" 1) = false ∧
  cache (serve (DeleteClassNotice "c0ffee" 1) school) = cache school ∧
  cache_events
    (events_since school (serve (DeleteClassNotice "c0ffee" 1) school)) = [].
Proof.
  split; [reflexivity|].
  exact (uncached_requests_leave_cache school
           (DeleteClassNotice "c0ffee" 1) eq_refl).
Defined.

(** X8 on a read of the class. *)
Lemma reads_leave_store_witness :
  is_read (ReadClass "c0ffee") = true ∧
  db (serve (ReadClass "c0ffee") school) = db school.
Proof.
  split; [reflexivity|].
  exact (reads_leave_store school (ReadClass "c0ffee") eq_refl).
Defined.

(** X9 on an update during the outage. *)
Lemma handlers_well_scoped_witness :
  sess outage = None ∧
  well_scoped false
    (events_since outage (serve (UpdateClassNotice "c0ffee" 1 moved) outage))
    = true ∧
  sess (serve (UpdateClassNotice "c0ffee" 1 moved) outage) = None.
Proof.
  split; [reflexivity|].
  destruct (handlers_well_scoped outage (UpdateClassNotice "c0ffee" 1 moved))
    as (Hw & _ & Hs & _).
  split; [exact Hw|]. apply Hs. reflexivity.
Defined.

(** X10 during the outage. *)
Lemma reads_surface_store_errors_witness :
  faults outage = [true] ∧
  hits_class "c0ffee" outage = false ∧
  hits_list outage = false ∧
  raw_failure outage (read_class "c0ffee" outage) ∧
  raw_failure outage (read_class_list outage) ∧
  raw_failure outage (read_class_notice_list "c0ffee" outage).
Proof.
  split; [reflexivity|]. split; [reflexivity|]. split; [reflexivity|].
  destruct (reads_surface_store_errors outage "c0ffee" [] eq_refl)
    as (Hc & Hl & Hn).
  split; [apply Hc; reflexivity|]. split; [apply Hl; reflexivity|exact Hn].
Defined.

(** X12 on the school: a creation, an update and a delete in a row. *)
Lemma notice_ids_stay_distinct_witness :
  notice_ids_ok (db school) ∧
  notice_ids_ok
    (db (serve_all [CreateClassNotice "c0ffee" moved;
                    UpdateClassNotice "c0ffee" 1 moved;
                    DeleteClassNotice "c0ffee" 2] school)).
Proof.
  split; [exact school_ids_ok|].
  exact (notice_ids_stay_distinct _ school school_ids_ok).
Defined.

(** X13 on the school after a first read, the store then failing. *)
Lemma cache_hit_needs_no_store_witness :
  hits_class "c0ffee" (read_class "c0ffee" school).2 = true ∧
  (read_class "c0ffee" (set_faults [true] (read_class "c0ffee" school).2)).1
    = Ret (class_resp algebra).
Proof.
  split; [reflexivity|].
  destruct (cache_hit_needs_no_store (read_class "c0ffee" school).2
              "c0ffee" [true]) as [Hc _].
  destruct Hc as (Heq & _); [reflexivity|].
  rewrite Heq. reflexivity.
Defined.

(** X14 on the first notice of the school. *)
Lemma updated_notice_is_listed_witness :
  calm 3 (faults school) = true ∧
  ∃ resp w1 l,
    update_class_notice "c0ffee" 1 moved school = (Ret resp, w1) ∧
    (read_class_notice_list "c0ffee" w1).1 = Ret l ∧
    resp ∈ l ∧
    (∀ x, x ∈ l → ClassNoticeResp.id x = 1 → x = resp).
Proof.
  split; [reflexivity|].
  exact (updated_notice_is_listed school "c0ffee" 1 moved hello eq_refl
           school_ids_distinct hello_in_school hello_matches).
Defined.

(** ** The paths of the cached reads *)

(** With every await answered at once by a cache that is up, the paced
    reads are the handlers of the router. *)
Lemma read_class_list_paced_nil w : read_class_list_paced [] w = read_class_list w.
Proof.
  destruct w as [[cls nts seq] s c t f tr]. run_handler. nil_pace.
  destruct (redis_exists _ t c); run_handler; rewrite ?Z.add_0_r; [done|].
  destruct f as [|[] f]; run_handler; by rewrite ?Z.add_0_r.
Qed.


(** The paths of [read_class_list_paced]. *)
Lemma read_class_list_paced_down0 p w :
  cache_down p 0 = true →
  read_class_list_paced p w =
    (Raise RedisError,
     mkWorld (db w) (sess w) (cache w) (now w + gap p 0) (faults w)
       (trace w ++ [EvCacheExists list_key])).
Proof.
  intros H0. unfold list_key. destruct w as [d s c t f tr].
  run_handler. rewrite H0. by run_handler.
Qed.

Lemma read_class_list_paced_hit_down p w :
  cache_down p 0 = false →
  redis_exists list_key (now w + gap p 0) (cache w) = true →
  cache_down p 1 = true →
  read_class_list_paced p w =
    (Raise RedisError,
     mkWorld (db w) (sess w) (cache w) (now w + gap p 0 + gap p 1) (faults w)
       (trace w ++ [EvCacheExists list_key; EvCacheGet list_key])).
Proof.
  intros H0 Hx H1. unfold list_key in *. destruct w as [d s c t f tr].
  cbv beta iota delta [cache now] in Hx. run_handler. rewrite H0.
  run_handler. rewrite Hx. run_handler. rewrite H1. run_handler.
  by rewrite <- !app_assoc.
Qed.

Lemma read_class_list_paced_hit p w :
  cache_down p 0 = false →
  redis_exists list_key (now w + gap p 0) (cache w) = true →
  cache_down p 1 = false →
  let v := redis_get list_key (now w + gap p 0 + gap p 1) (cache w) in
  read_class_list_paced p w =
    (match v with
     | PyList l => Ret (class_resp <$> l)
     | PyClass _ => Raise TypeError
     | PyNone => Raise ClassNotFoundException
     end,
     mkWorld (db w) (sess w) (cache w) (now w + gap p 0 + gap p 1) (faults w)
       (trace w ++ [EvCacheExists list_key; EvCacheGet list_key;
                    EvLog DEBUG] ++
                   match v with
                   | PyNone => [EvRaise ClassNotFoundException]
                   | _ => []
                   end)).
Proof.
  intros H0 Hx H1 v. subst v. unfold list_key in *.
  destruct w as [d s c t f tr].
  cbv beta iota delta [cache now] in Hx |- *. run_handler. rewrite H0.
  run_handler. rewrite Hx. run_handler. rewrite H1. run_handler.
  destruct (redis_get _ _ c); by rewrite <- !app_assoc.
Qed.

Lemma read_class_list_paced_miss_fault p w f :
  cache_down p 0 = false →
  redis_exists list_key (now w + gap p 0) (cache w) = false →
  faults w = true :: f →
  read_class_list_paced p w =
    (Raise DBAPIError,
     mkWorld (db w) None (cache w) (now w + gap p 0 + gap p 1) f
       (trace w ++ [EvCacheExists list_key; EvLog DEBUG; EvScopeEnter;
                    EvExecute (OnClass SelectClasses) false;
                    EvScopeExit true])).
Proof.
  intros H0 Hx Hf. unfold list_key in *. destruct w as [d s c t f' tr].
  cbv beta iota delta [cache now faults] in Hx, Hf. subst f'.
  run_handler. rewrite H0. run_handler. rewrite Hx. run_handler.
  by rewrite <- !app_assoc.
Qed.

Lemma read_class_list_paced_miss_down p w :
  cache_down p 0 = false →
  redis_exists list_key (now w + gap p 0) (cache w) = false →
  calm 1 (faults w) = true →
  cache_down p 2 = true →
  read_class_list_paced p w =
    (Raise RedisError,
     mkWorld (db w) None (cache w) (now w + gap p 0 + gap p 1 + gap p 2)
       (drop 1 (faults w))
       (trace w ++ [EvCacheExists list_key; EvLog DEBUG; EvScopeEnter;
                    EvExecute (OnClass SelectClasses) true;
                    EvCacheSet list_key (PyList (classes (db w))) 60;
                    EvScopeExit true])).
Proof.
  intros H0 Hx Hf H2. unfold list_key in *.
  destruct w as [[cls nts seq] s c t [|[] f] tr]; try discriminate;
    cbv beta iota delta [cache now db classes] in Hx |- *;
    run_handler; rewrite H0; run_handler; rewrite Hx; run_handler;
    rewrite H2; run_handler; by rewrite <- !app_assoc.
Qed.

Lemma read_class_list_paced_miss_ok p w :
  cache_down p 0 = false →
  redis_exists list_key (now w + gap p 0) (cache w) = false →
  calm 1 (faults w) = true →
  cache_down p 2 = false →
  let rows := classes (db w) in
  let t2 := now w + gap p 0 + gap p 1 + gap p 2 in
  read_class_list_paced p w =
    (Ret (class_resp <$> rows),
     mkWorld (db w) None (redis_set list_key (PyList rows) 60 t2 (cache w))
       t2 (drop 1 (faults w))
       (trace w ++ [EvCacheExists list_key; EvLog DEBUG; EvScopeEnter;
                    EvExecute (OnClass SelectClasses) true;
                    EvCacheSet list_key (PyList rows) 60;
                    EvLog DEBUG; EvScopeExit false])).
Proof.
  intros H0 Hx Hf H2 rows t2. subst rows t2. unfold list_key in *.
  destruct w as [[cls nts seq] s c t [|[] f] tr]; try discriminate;
    cbv beta iota delta [cache now db classes] in Hx |- *;
    run_handler; rewrite H0; run_handler; rewrite Hx; run_handler;
    rewrite H2; run_handler; by rewrite <- !app_assoc.
Qed.

(** The paths of [read_class_paced]. *)
Lemma read_class_paced_down0 p w cid :
  cache_down p 0 = true →
  read_class_paced cid p w =
    (Raise RedisError,
     mkWorld (db w) (sess w) (cache w) (now w + gap p 0) (faults w)
       (trace w ++ [EvCacheGet (class_key cid)])).
Proof.
  intros H0. unfold class_key. destruct w as [d s c t f tr].
  run_handler. rewrite H0. by run_handler.
Qed.

Lemma read_class_paced_hit_down p w cid :
  cache_down p 0 = false →
  truthy (redis_get (class_key cid) (now w + gap p 0) (cache w)) = true →
  cache_down p 1 = true →
  read_class_paced cid p w =
    (Raise RedisError,
     mkWorld (db w) (sess w) (cache w) (now w + gap p 0 + gap p 1) (faults w)
       (trace w ++ [EvCacheGet (class_key cid); EvLog DEBUG;
                    EvCacheGet (class_key cid)])).
Proof.
  intros H0 Hx H1. unfold class_key in *. destruct w as [d s c t f tr].
  cbv beta iota delta [cache now] in Hx. run_handler. rewrite H0.
  run_handler. rewrite Hx. run_handler. rewrite H1. run_handler.
  by rewrite <- !app_assoc.
Qed.

Lemma read_class_paced_hit p w cid :
  cache_down p 0 = false →
  truthy (redis_get (class_key cid) (now w + gap p 0) (cache w)) = true →
  cache_down p 1 = false →
  let v := redis_get (class_key cid) (now w + gap p 0 + gap p 1) (cache w) in
  read_class_paced cid p w =
    (match v with
     | PyClass r => Ret (class_resp r)
     | PyList _ => Raise AttributeError
     | PyNone => Raise ClassNotFoundException
     end,
     mkWorld (db w) (sess w) (cache w) (now w + gap p 0 + gap p 1) (faults w)
       (trace w ++ [EvCacheGet (class_key cid); EvLog DEBUG;
                    EvCacheGet (class_key cid)] ++
                   match v with
                   | PyNone => [EvRaise ClassNotFoundException]
                   | _ => []
                   end)).
Proof.
  intros H0 Hx H1 v. subst v. unfold class_key in *.
  destruct w as [d s c t f tr].
  cbv beta iota delta [cache now] in Hx |- *. run_handler. rewrite H0.
  run_handler. rewrite Hx. run_handler. rewrite H1. run_handler.
  destruct (redis_get _ (t + gap p 0 + gap p 1) c); by rewrite <- !app_assoc.
Qed.

Lemma read_class_paced_miss_fault p w cid f :
  cache_down p 0 = false →
  truthy (redis_get (class_key cid) (now w + gap p 0) (cache w)) = false →
  faults w = true :: f →
  read_class_paced cid p w =
    (Raise DBAPIError,
     mkWorld (db w) None (cache w) (now w + gap p 0 + gap p 1) f
       (trace w ++ [EvCacheGet (class_key cid); EvScopeEnter;
                    EvExecute (OnClass (SelectClassWhere cid)) false;
                    EvScopeExit true])).
Proof.
  intros H0 Hx Hf. unfold class_key in *. destruct w as [d s c t f' tr].
  cbv beta iota delta [cache now faults] in Hx, Hf. subst f'.
  run_handler. rewrite H0. run_handler. rewrite Hx. run_handler.
  by rewrite <- !app_assoc.
Qed.

Lemma read_class_paced_miss_down p w cid :
  cache_down p 0 = false →
  truthy (redis_get (class_key cid) (now w + gap p 0) (cache w)) = false →
  calm 1 (faults w) = true →
  cache_down p 2 = true →
  read_class_paced cid p w =
    (Raise RedisError,
     mkWorld (db w) None (cache w) (now w + gap p 0 + gap p 1 + gap p 2)
       (drop 1 (faults w))
       (trace w ++ [EvCacheGet (class_key cid); EvScopeEnter;
                    EvExecute (OnClass (SelectClassWhere cid)) true;
                    EvScopeExit false;
                    EvCacheSet (class_key cid)
                      (py_scalar (rows_of_class cid (db w))) 60])).
Proof.
  intros H0 Hx Hf H2. unfold class_key, rows_of_class in *.
  destruct w as [[cls nts seq] s c t [|[] f] tr]; try discriminate;
    cbv beta iota delta [cache now db classes] in Hx |- *;
    run_handler; rewrite H0; run_handler; rewrite Hx; run_handler;
    rewrite H2; run_handler; by rewrite <- !app_assoc.
Qed.

Lemma read_class_paced_miss_ok p w cid :
  cache_down p 0 = false →
  truthy (redis_get (class_key cid) (now w + gap p 0) (cache w)) = false →
  calm 1 (faults w) = true →
  cache_down p 2 = false →
  let rows := rows_of_class cid (db w) in
  let t2 := now w + gap p 0 + gap p 1 + gap p 2 in
  read_class_paced cid p w =
    (match head rows with
     | Some r => Ret (class_resp r)
     | None => Raise ClassNotFoundException
     end,
     mkWorld (db w) None
       (redis_set (class_key cid) (py_scalar rows) 60 t2 (cache w))
       t2 (drop 1 (faults w))
       (trace w ++ [EvCacheGet (class_key cid); EvScopeEnter;
                    EvExecute (OnClass (SelectClassWhere cid)) true;
                    EvScopeExit false;
                    EvCacheSet (class_key cid) (py_scalar rows) 60] ++
                   match head rows with
                   | Some _ => []
                   | None => [EvRaise ClassNotFoundException]
                   end)).
Proof.
  intros H0 Hx Hf H2 rows t2. subst rows t2.
  unfold class_key, rows_of_class in *.
  destruct w as [[cls nts seq] s c t [|[] f] tr]; try discriminate;
    cbv beta iota delta [cache now db classes] in Hx |- *;
    run_handler; rewrite H0; run_handler; rewrite Hx; run_handler;
    rewrite H2; run_handler;
    destruct (head (filter _ cls)); by rewrite <- !app_assoc.
Qed.

(** ** Deleting a notice twice *)

(** C4. For a notice that exists under the class, with the store accepting
    the round trips of both calls, [delete_class_notice] answers with the
    data of that notice (its id, the id of its class, its message and its
    two timestamps) and removes it; the same call made again raises
    [ClassNoticeNotFound]. *)
Theorem delete_succeeds_once w cid nid r :
  calm 4 (faults w) = true →
  NoDup (ClassNotice.id <$> notices (db w)) →
  r ∈ notices (db w) →
  notice_matches nid cid r →
  ∃ resp w1,
    delete_class_notice cid nid w = (Ret resp, w1) ∧
    ClassNoticeResp.id resp = nid ∧
    ClassNoticeResp.classId resp = cid ∧
    ClassNoticeResp.message resp = ClassNotice.message r ∧
    ClassNoticeResp.createdAt resp = ClassNotice.created_at r ∧
    ClassNoticeResp.updatedAt resp = ClassNotice.updated_at r ∧
    (r ∉ notices (db w1)) ∧
    (delete_class_notice cid nid w1).1 = Raise ClassNoticeNotFound.
Proof.
  intros Hf Hnd Hin Hm. apply (calm_drop 2 2) in Hf as [Hf1 Hf2].
  pose proof Hm as [Hid Hcid].
  eexists _, _. split_and!.
  - apply delete_class_notice_found; [done|]. by apply head_filter_unique.
  - exact Hid.
  - exact Hcid.
  - reflexivity.
  - reflexivity.
  - reflexivity.
  - simpl. intros [Hn _]%list_elem_of_filter. by apply Hn.
  - rewrite delete_class_notice_missing; [done|done|].
    simpl. by intros x [Hn _]%list_elem_of_filter.
Qed.

(** C4 on the first notice of the school. *)
Lemma delete_succeeds_once_witness :
  calm 4 (faults school) = true ∧
  NoDup (ClassNotice.id <$> notices (db school)) ∧
  hello ∈ notices (db school) ∧
  notice_matches 1 "c0ffee" hello ∧
  ∃ resp w1,
    delete_class_notice "c0ffee" 1 school = (Ret resp, w1) ∧
    ClassNoticeResp.id resp = 1 ∧
    ClassNoticeResp.classId resp = "c0ffee" ∧
    ClassNoticeResp.message resp = "hello" ∧
    ClassNoticeResp.createdAt resp = 6 ∧
    ClassNoticeResp.updatedAt resp = 6 ∧
    (hello ∉ notices (db w1)) ∧
    (delete_class_notice "c0ffee" 1 w1).1 = Raise ClassNoticeNotFound.
Proof.
  assert (Hin : hello ∈ notices (db school)) by (simpl; apply elem_of_cons; by left).
  assert (Hm : notice_matches 1 "c0ffee" hello) by (split; reflexivity).
  split_and!; [reflexivity|exact school_ids_distinct|exact Hin|exact Hm|].
  exact (delete_succeeds_once school "c0ffee" 1 hello eq_refl
           school_ids_distinct Hin Hm).
Defined.

(** ** What the cached reads leave in the cache *)

Lemma forward_gap p i : forward p → 0 ≤ gap p i.
Proof.
  intros Hp. unfold gap. destruct (p !! i) as [x|] eqn:Hx; simpl; [|done].
  by apply (Forall_lookup_1 _ _ _ _ Hp Hx).
Qed.

(** A paced read leaves the cache as it was or, having gone to the store,
    with what the store gave under its key. *)
Lemma read_class_list_paced_cache p w :
  cache (read_class_list_paced p w).2 = cache w ∨
  ∃ t, cache (read_class_list_paced p w).2
       = redis_set list_key (PyList (classes (db w))) 60 t (cache w).
Proof.
  destruct (cache_down p 0) eqn:H0.
  { left. by rewrite read_class_list_paced_down0. }
  destruct (redis_exists list_key (now w + gap p 0) (cache w)) eqn:Hx.
  { left. destruct (cache_down p 1) eqn:H1.
    - by rewrite read_class_list_paced_hit_down.
    - by rewrite read_class_list_paced_hit. }
  destruct (fault_or_calm (faults w)) as [[f Hf]|Hf].
  { left. by rewrite (read_class_list_paced_miss_fault _ _ f). }
  destruct (cache_down p 2) eqn:H2.
  - left. by rewrite read_class_list_paced_miss_down.
  - right. rewrite read_class_list_paced_miss_ok by done. by eexists.
Qed.

Lemma read_class_paced_cache p w cid :
  cache (read_class_paced cid p w).2 = cache w ∨
  ∃ t, cache (read_class_paced cid p w).2
       = redis_set (class_key cid) (py_scalar (rows_of_class cid (db w)))
           60 t (cache w).
Proof.
  destruct (cache_down p 0) eqn:H0.
  { left. by rewrite read_class_paced_down0. }
  destruct (truthy (redis_get (class_key cid) (now w + gap p 0) (cache w)))
    eqn:Hx.
  { left. destruct (cache_down p 1) eqn:H1.
    - by rewrite read_class_paced_hit_down.
    - by rewrite read_class_paced_hit. }
  destruct (fault_or_calm (faults w)) as [[f Hf]|Hf].
  { left. by rewrite (read_class_paced_miss_fault _ _ _ f). }
  destruct (cache_down p 2) eqn:H2.
  - left. by rewrite read_class_paced_miss_down.
  - right. rewrite read_class_paced_miss_ok by done. by eexists.
Qed.

Lemma reachable_list_slot_ok w : reachable w → list_slot_ok (cache w).
Proof.
  induction 1 as [w Hw|w r _ IH|w cid p _ IH _|w p _ IH _|w d _ IH _].
  - intros e. by rewrite Hw, lookup_empty.
  - by apply serve_list_slot_ok.
  - destruct (read_class_paced_cache p w cid) as [->|[t ->]]; [done|].
    apply list_slot_ok_set_other; [apply class_key_not_list_key|done].
  - destruct (read_class_list_paced_cache p w) as [->|[t ->]]; [done|].
    apply list_slot_ok_set_list.
  - done.
Qed.

(** ** The Not Found of the class list *)

(** Counterexample to C9 as stated. The school has a class and has served
    its list once, 59 seconds ago: the entry has one second left. On the
    next [read_class_list], [exists] finds the entry, [get] is answered a
    second later and finds none, and the handler raises
    [ClassNotFoundException], though the store holds a class. *)
Lemma read_class_list_not_found_by_expiry :
  reachable late_school ∧
  forward slow_get ∧
  classes (db late_school) = [algebra] ∧
  (read_class_list_paced slow_get late_school).1
    = Raise ClassNotFoundException.
Proof.
  split_and!.
  - apply reach_elapse; [|lia]. apply reach_serve, reach_start. reflexivity.
  - repeat constructor; simpl; lia.
  - reflexivity.
  - by vm_compute.
Qed.

(** C9, as the code has it. In every world the service can reach and at
    every pace, [read_class_list] raises [ClassNotFoundException] exactly
    when the cache answers both lookups and the entry that [exists] finds
    is gone when [get] is answered; in particular not when [get] is
    answered at once. When the handler goes to the store and store and
    cache answer, it returns the rows as a successful response and caches
    them for 60 seconds, also when there are none. *)
Theorem read_class_list_not_found_iff_expired w p :
  reachable w →
  ((read_class_list_paced p w).1 = Raise ClassNotFoundException ↔
     cache_down p 0 = false ∧ cache_down p 1 = false ∧
     redis_exists list_key (now w + gap p 0) (cache w) = true ∧
     redis_exists list_key (now w + gap p 0 + gap p 1) (cache w) = false) ∧
  (gap p 1 = 0 →
     (read_class_list_paced p w).1 ≠ Raise ClassNotFoundException) ∧
  (read_class_list w).1 ≠ Raise ClassNotFoundException ∧
  (cache_down p 0 = false →
   redis_exists list_key (now w + gap p 0) (cache w) = false →
   calm 1 (faults w) = true →
   cache_down p 2 = false →
     let out := read_class_list_paced p w in
     out.1 = Ret (class_resp <$> classes (db w)) ∧
     cache out.2 !! list_key
       = Some (mkEntry (PyList (classes (db w))) (now out.2 + 60))).
Proof.
  intros Hc%reachable_list_slot_ok.
  assert (Hiff : ∀ q,
    (read_class_list_paced q w).1 = Raise ClassNotFoundException ↔
     cache_down q 0 = false ∧ cache_down q 1 = false ∧
     redis_exists list_key (now w + gap q 0) (cache w) = true ∧
     redis_exists list_key (now w + gap q 0 + gap q 1) (cache w) = false).
  { intros q. destruct (cache_down q 0) eqn:H0.
    { rewrite read_class_list_paced_down0 by done. simpl. other_outcome. }
    destruct (redis_exists list_key (now w + gap q 0) (cache w)) eqn:Hx.
    - destruct (cache_down q 1) eqn:H1.
      { rewrite read_class_list_paced_hit_down by done. simpl. other_outcome. }
      rewrite read_class_list_paced_hit by done. simpl.
      unfold redis_get, redis_exists.
      destruct (cache w !! list_key) as [e|] eqn:He; [|done].
      destruct (Hc e He) as [l Hl].
      destruct (live (now w + gap q 0 + gap q 1) e); rewrite ?Hl;
        [other_outcome|done].
    - destruct (fault_or_calm (faults w)) as [[f Hf]|Hf].
      { rewrite (read_class_list_paced_miss_fault _ _ f) by done.
        simpl. other_outcome. }
      destruct (cache_down q 2) eqn:H2.
      + rewrite read_class_list_paced_miss_down by done. simpl. other_outcome.
      + rewrite read_class_list_paced_miss_ok by done. simpl. other_outcome. }
  split_and!.
  - apply Hiff.
  - intros Hg (_ & _ & Hx & Hx')%Hiff.
    rewrite Hg, Z.add_0_r in Hx'. congruence.
  - rewrite <- read_class_list_paced_nil.
    intros (_ & _ & Hx & Hx')%Hiff.
    change (gap [] 0%nat) with 0 in Hx, Hx'.
    change (gap [] 1%nat) with 0 in Hx'.
    rewrite Z.add_0_r in Hx. rewrite !Z.add_0_r in Hx'. congruence.
  - intros H0 Hx Hf H2 out. subst out.
    rewrite read_class_list_paced_miss_ok by done. simpl.
    split; [done|]. apply lookup_insert_eq.
Qed.

(** C9 on the school one second before its cached list expires: at a pace
    that lets a second pass before [get], the theorem gives the Not Found;
    with [get] answered at once it excludes it. *)
Lemma read_class_list_not_found_witness :
  reachable late_school ∧
  (read_class_list_paced slow_get late_school).1
    = Raise ClassNotFoundException ∧
  (read_class_list_paced [] late_school).1 ≠ Raise ClassNotFoundException ∧
  (read_class_list late_school).1 ≠ Raise ClassNotFoundException.
Proof.
  assert (Hr : reachable late_school).
  { apply reach_elapse; [|lia]. apply reach_serve, reach_start. reflexivity. }
  split; [exact Hr|].
  destruct (read_class_list_not_found_iff_expired late_school slow_get Hr)
    as (Hiff & _ & _ & _).
  destruct (read_class_list_not_found_iff_expired late_school [] Hr)
    as (_ & Hnow & Hplain & _).
  split_and!.
  - apply Hiff. split_and!; by vm_compute.
  - apply Hnow. by vm_compute.
  - exact Hplain.
Defined.

(** ** Reading twice, await by await *)

(** A live entry is what [get] returns. *)
Lemma redis_get_live key t (c : gmap string entry) e :
  c !! key = Some e → t < expiry e → redis_get key t c = value e.
Proof.
  intros He Ht. unfold redis_get, live. rewrite He.
  by rewrite bool_decide_eq_true_2.
Qed.

Lemma redis_exists_live key t (c : gmap string entry) e :
  c !! key = Some e → t < expiry e → redis_exists key t c = true.
Proof.
  intros He Ht. unfold redis_exists, live. rewrite He.
  by rewrite bool_decide_eq_true_2.
Qed.

(** What [get] returned, when not [None], is the value of a live entry. *)
Lemma redis_get_some key t (c : gmap string entry) :
  redis_get key t c ≠ PyNone →
  ∃ e, c !! key = Some e ∧ t < expiry e ∧ value e = redis_get key t c.
Proof.
  unfold redis_get, live. destruct (c !! key) as [e|]; [|done].
  case_bool_decide; [|done]. intros _. by exists e.
Qed.

(** A successful [read_class] leaves its row in the cache, in an entry
    that is live when the call returns; it has sent at most one statement,
    and the entry has 60 seconds left if it sent one. *)
Lemma read_class_paced_first p w cid resp w1 :
  read_class_paced cid p w = (Ret resp, w1) →
  (∃ evs, trace w1 = trace w ++ evs ∧ (db_queries evs ≤ 1)%nat ∧
          (db_queries evs = 1%nat → ttl_left (class_key cid) w1 = 60)) ∧
  (∃ e r, cache w1 !! class_key cid = Some e ∧ now w1 < expiry e ∧
          value e = PyClass r ∧ resp = class_resp r).
Proof.
  intros H1. destruct (cache_down p 0) eqn:H0.
  { by rewrite read_class_paced_down0 in H1. }
  destruct (truthy (redis_get (class_key cid) (now w + gap p 0) (cache w)))
    eqn:Hx.
  - destruct (cache_down p 1) eqn:Hd1.
    { by rewrite read_class_paced_hit_down in H1. }
    rewrite read_class_paced_hit in H1 by done.
    destruct (redis_get (class_key cid) (now w + gap p 0 + gap p 1) (cache w))
      as [|r|l] eqn:Hv; [done| |done].
    injection H1 as <- <-. simpl. split.
    + eexists. split; [done|]. split; [vm_compute; lia|].
      intros Hone. vm_compute in Hone. lia.
    + destruct (redis_get_some (class_key cid) (now w + gap p 0 + gap p 1)
                  (cache w)) as (e & He & Hlive & Hval); [by rewrite Hv|].
      exists e, r. rewrite Hv in Hval. done.
  - destruct (fault_or_calm (faults w)) as [[f Hf]|Hf].
    { by rewrite (read_class_paced_miss_fault _ _ _ f) in H1. }
    destruct (cache_down p 2) eqn:Hd2.
    { by rewrite read_class_paced_miss_down in H1. }
    rewrite read_class_paced_miss_ok in H1 by done.
    unfold py_scalar, scalar in H1.
    destruct (head (rows_of_class cid (db w))) as [r|] eqn:Hr; [|done].
    injection H1 as <- <-. simpl. split.
    + eexists. split; [done|]. split; [vm_compute; lia|]. intros _.
      unfold ttl_left, redis_set. simpl. rewrite lookup_insert_eq. simpl. lia.
    + eexists _, r. unfold redis_set. rewrite lookup_insert_eq.
      split_and!; [done|simpl; lia|done|done].
Qed.

Lemma read_class_list_paced_first p w resp w1 :
  read_class_list_paced p w = (Ret resp, w1) →
  (∃ evs, trace w1 = trace w ++ evs ∧ (db_queries evs ≤ 1)%nat ∧
          (db_queries evs = 1%nat → ttl_left list_key w1 = 60)) ∧
  (∃ e l, cache w1 !! list_key = Some e ∧ now w1 < expiry e ∧
          value e = PyList l ∧ resp = class_resp <$> l).
Proof.
  intros H1. destruct (cache_down p 0) eqn:H0.
  { by rewrite read_class_list_paced_down0 in H1. }
  destruct (redis_exists list_key (now w + gap p 0) (cache w)) eqn:Hx.
  - destruct (cache_down p 1) eqn:Hd1.
    { by rewrite read_class_list_paced_hit_down in H1. }
    rewrite read_class_list_paced_hit in H1 by done.
    destruct (redis_get list_key (now w + gap p 0 + gap p 1) (cache w))
      as [|r|l] eqn:Hv; [done|done|].
    injection H1 as <- <-. simpl. split.
    + eexists. split; [done|]. split; [vm_compute; lia|].
      intros Hone. vm_compute in Hone. lia.
    + destruct (redis_get_some list_key (now w + gap p 0 + gap p 1)
                  (cache w)) as (e & He & Hlive & Hval); [by rewrite Hv|].
      exists e, l. rewrite Hv in Hval. done.
  - destruct (fault_or_calm (faults w)) as [[f Hf]|Hf].
    { by rewrite (read_class_list_paced_miss_fault _ _ f) in H1. }
    destruct (cache_down p 2) eqn:Hd2.
    { by rewrite read_class_list_paced_miss_down in H1. }
    rewrite read_class_list_paced_miss_ok in H1 by done.
    injection H1 as <- <-. simpl. split.
    + eexists. split; [done|]. split; [vm_compute; lia|]. intros _.
      unfold ttl_left, redis_set. simpl. rewrite lookup_insert_eq. simpl. lia.
    + eexists _, _. unfold redis_set. rewrite lookup_insert_eq.
      split_and!; [done|simpl; lia|done|done].
Qed.

(** C5, as the code has it. When a cached read returns a successful
    response, the cache holds its result, with 60 seconds to live if the
    read went to the store. An identical read issued afterwards, whose two
    lookups in the cache are answered, both before that entry expires, is
    served from the cache: it gives the same response and touches neither
    session nor store, so that the two reads send at most one statement
    between them. *)
Theorem repeated_read_served_from_cache w p d p' :
  0 ≤ d → forward p' →
  cache_down p' 0 = false → cache_down p' 1 = false →
  (∀ cid resp w1, read_class_paced cid p w = (Ret resp, w1) →
     (db_queries (events_since w w1) = 1%nat →
        ttl_left (class_key cid) w1 = 60) ∧
     (d + gap p' 0 + gap p' 1 < ttl_left (class_key cid) w1 →
        let out := read_class_paced cid p' (elapse d w1) in
        out.1 = Ret resp ∧
        db_events (events_since w1 out.2) = [] ∧
        (db_queries (events_since w out.2) ≤ 1)%nat)) ∧
  (∀ resp w1, read_class_list_paced p w = (Ret resp, w1) →
     (db_queries (events_since w w1) = 1%nat → ttl_left list_key w1 = 60) ∧
     (d + gap p' 0 + gap p' 1 < ttl_left list_key w1 →
        let out := read_class_list_paced p' (elapse d w1) in
        out.1 = Ret resp ∧
        db_events (events_since w1 out.2) = [] ∧
        (db_queries (events_since w out.2) ≤ 1)%nat)).
Proof.
  intros Hd0 Hp' H0 Hd1.
  pose proof (forward_gap p' 0 Hp') as Hg0.
  pose proof (forward_gap p' 1 Hp') as Hg1.
  split.
  - intros cid resp w1 H1.
    destruct (read_class_paced_first p w cid resp w1 H1)
      as ((evs & Hevs & Hq & Hmiss) & (e & r & He & Hlive & Hr & ->)).
    split.
    { intros Hone. apply Hmiss. by erewrite events_since_app in Hone. }
    intros Hd out. subst out. unfold ttl_left in Hd. rewrite He in Hd.
    assert (Hget0 : redis_get (class_key cid) (now (elapse d w1) + gap p' 0)
                      (cache (elapse d w1)) = PyClass r).
    { simpl. rewrite (redis_get_live _ _ _ e) by (done || lia). done. }
    assert (Hget1 : redis_get (class_key cid)
                      (now (elapse d w1) + gap p' 0 + gap p' 1)
                      (cache (elapse d w1)) = PyClass r).
    { simpl. rewrite (redis_get_live _ _ _ e) by (done || lia). done. }
    rewrite read_class_paced_hit by (done || by rewrite Hget0).
    rewrite Hget1. simpl. split_and!; [done| |].
    + erewrite events_since_app; [|done]. by vm_compute.
    + erewrite events_since_app; [|rewrite Hevs; by rewrite <- app_assoc].
      rewrite db_queries_app.
      change (db_queries [_; _; _]) with 0%nat. lia.
  - intros resp w1 H1.
    destruct (read_class_list_paced_first p w resp w1 H1)
      as ((evs & Hevs & Hq & Hmiss) & (e & l & He & Hlive & Hl & ->)).
    split.
    { intros Hone. apply Hmiss. by erewrite events_since_app in Hone. }
    intros Hd out. subst out. unfold ttl_left in Hd. rewrite He in Hd.
    assert (Hex : redis_exists list_key (now (elapse d w1) + gap p' 0)
                    (cache (elapse d w1)) = true).
    { simpl. apply (redis_exists_live _ _ _ e); [done|lia]. }
    assert (Hget1 : redis_get list_key
                      (now (elapse d w1) + gap p' 0 + gap p' 1)
                      (cache (elapse d w1)) = PyList l).
    { simpl. rewrite (redis_get_live _ _ _ e) by (done || lia). done. }
    rewrite read_class_list_paced_hit by done.
    rewrite Hget1. simpl. split_and!; [done| |].
    + erewrite events_since_app; [|done]. by vm_compute.
    + erewrite events_since_app; [|rewrite Hevs; by rewrite <- app_assoc].
      rewrite db_queries_app.
      change (db_queries [_; _; _]) with 0%nat. lia.
Qed.

(** C5 on the school: a first read at a leisurely pace, then, 58 seconds
    after it returned, a second one whose second lookup is answered in the
    last second of the entry. *)
Lemma repeated_read_witness :
  0 ≤ 58 ∧ forward slow_get ∧
  cache_down slow_get 0 = false ∧ cache_down slow_get 1 = false ∧
  (let w1 := (read_class_paced "c0ffee" unhurried school).2 in
   ttl_left (class_key "c0ffee") w1 = 60 ∧
   (read_class_paced "c0ffee" slow_get (elapse 58 w1)).1
     = Ret (class_resp algebra) ∧
   db_events
     (events_since w1 (read_class_paced "c0ffee" slow_get (elapse 58 w1)).2)
     = []) ∧
  (let w1 := (read_class_list_paced unhurried school).2 in
   ttl_left list_key w1 = 60 ∧
   (read_class_list_paced slow_get (elapse 58 w1)).1
     = Ret [class_resp algebra] ∧
   db_events
     (events_since w1 (read_class_list_paced slow_get (elapse 58 w1)).2)
     = []).
Proof.
  assert (Hd : 0 ≤ 58) by lia.
  assert (Hp : forward slow_get) by (repeat constructor; simpl; lia).
  split; [exact Hd|]. split; [exact Hp|].
  split; [reflexivity|]. split; [reflexivity|].
  destruct (repeated_read_served_from_cache school unhurried 58 slow_get
              Hd Hp eq_refl eq_refl) as [Hc Hl].
  destruct (Hc "c0ffee" (class_resp algebra)
              (read_class_paced "c0ffee" unhurried school).2)
    as [Hc1 Hc2]; [by vm_compute|].
  destruct (Hl [class_resp algebra] (read_class_list_paced unhurried school).2)
    as [Hl1 Hl2]; [by vm_compute|].
  assert (Hct : ttl_left (class_key "c0ffee")
                  (read_class_paced "c0ffee" unhurried school).2 = 60).
  { apply Hc1. by vm_compute. }
  assert (Hlt : ttl_left list_key (read_class_list_paced unhurried school).2
                = 60).
  { apply Hl1. by vm_compute. }
  destruct Hc2 as (? & ? & _); [rewrite Hct; by vm_compute|].
  destruct Hl2 as (? & ? & _); [rewrite Hlt; by vm_compute|].
  done.
Defined.

(** ** The errors a request can end with *)








